(** * writesplitter: a write sink that rotates its output file

    Shallow embedding of [main.go] (package [writesplitter]) and the
    properties of its rotation logic.  The package talks to the operating
    system through [os.Create], [os.File.Write], [os.File.Close],
    [os.Stat] and [time.Now]; these are modelled by an explicit [World]
    that is threaded through every call.  The world carries scripts that
    decide the outcome of each system call, so every statement quantified
    over worlds covers successful, failing and partial system calls. *)

From Stdlib Require Import ZArith List String Ascii Bool Lia.
From Stdlib.Strings Require Import Byte.
Import ListNotations.

Local Open Scope string_scope.
Local Open Scope list_scope.
Local Open Scope Z_scope.

(** ** Go's [int] (64 bits, two's complement) *)

Module GoInt.

Definition min_int : Z := - 2 ^ 63.
Definition max_int : Z := 2 ^ 63 - 1.

(** Wrap-around of a mathematical integer into the range of [int]. *)
Definition wrap (z : Z) : Z := (z + 2 ^ 63) mod 2 ^ 64 - 2 ^ 63.

(** [a + b] on [int]. *)
Definition add (a b : Z) : Z := wrap (a + b).

Definition in_range (z : Z) : Prop := min_int <= z <= max_int.

End GoInt.

(** ** [path/filepath] on a Unix system

    Modelled from the Go documentation of [filepath.Clean] and
    [filepath.Join]: the lexical rules are (1) several separators become
    one, (2) every [.] element is dropped, (3) an inner [..] is dropped
    together with the element before it, (4) a [..] that begins a rooted
    path is dropped; the result of cleaning an empty path is ["."]. *)

Module filepath.

(** The elements of a path between separators; [cur] is the element being
    read. *)
Fixpoint elements (s : string) (cur : string) : list string :=
  match s with
  | EmptyString => [cur]
  | String c s' =>
      if Ascii.eqb c "/"%char then cur :: elements s' EmptyString
      else elements s' (String.append cur (String c EmptyString))
  end.

(** [out] is the stack of elements kept so far, last one first. *)
Fixpoint clean_elements (rooted : bool) (elems out : list string) : list string :=
  match elems with
  | [] => rev out
  | e :: rest =>
      if String.eqb e "" then clean_elements rooted rest out
      else if String.eqb e "." then clean_elements rooted rest out
      else if String.eqb e ".." then
        match out with
        | top :: out' =>
            if String.eqb top ".." then clean_elements rooted rest (e :: out)
            else clean_elements rooted rest out'
        | [] =>
            if rooted then clean_elements rooted rest []
            else clean_elements rooted rest [e]
        end
      else clean_elements rooted rest (e :: out)
  end.

Definition is_rooted (path : string) : bool :=
  match path with
  | String c _ => Ascii.eqb c "/"%char
  | EmptyString => false
  end.

Definition Clean (path : string) : string :=
  let rooted := is_rooted path in
  let body := String.concat "/" (clean_elements rooted (elements path "") []) in
  let out := if rooted then String.append "/" body else body in
  if String.eqb out "" then "." else out.

(** [Join] skips leading empty elements, joins the rest with the separator
    and cleans the result; joining only empty elements gives [""]. *)
Fixpoint Join (elem : list string) : string :=
  match elem with
  | [] => ""
  | e :: rest =>
      if String.eqb e "" then Join rest
      else Clean (String.concat "/" elem)
  end.

End filepath.

(** ** Errors *)

(** Causes reported by the operating system: [os.ErrClosed] for a file
    that was already closed, or an [errno] value. *)
Inductive syserr : Type :=
| ErrClosed
| Errno (code : Z).

Definition EPERM : syserr := Errno 1.
Definition ENOENT : syserr := Errno 2.
Definition EIO : syserr := Errno 5.
Definition EACCES : syserr := Errno 13.
Definition ENOSPC : syserr := Errno 28.

(** Go's [error] values met by the package: its two sentinels, [os.ErrInvalid]
    (a method called on a nil [*os.File]) and [*os.PathError].  The nil
    error is [None : option error]. *)
Inductive error : Type :=
| ErrNotAFile
| ErrNotADir
| ErrInvalid
| PathError (op path : string) (cause : syserr).

Definition syserr_eqb (a b : syserr) : bool :=
  match a, b with
  | ErrClosed, ErrClosed => true
  | Errno x, Errno y => Z.eqb x y
  | _, _ => false
  end.

(** [os.IsNotExist] and [os.IsPermission]: they look through the
    [*PathError] at the cause; both are false on the nil error. *)
Definition os_IsNotExist (e : option error) : bool :=
  match e with
  | Some (PathError _ _ c) => syserr_eqb c ENOENT
  | _ => false
  end.

Definition os_IsPermission (e : option error) : bool :=
  match e with
  | Some (PathError _ _ c) => syserr_eqb c EACCES || syserr_eqb c EPERM
  | _ => false
  end.

(** ** The world: files, clock, directory tree and the trace of system calls *)

(** An [*os.File] is an index into the table of files opened so far. *)
Abbreviation fd := nat (only parsing).

(** One [os.File] object: the path it was created at, the bytes written
    through it, and whether it has been closed.  ([os.Create] truncates a
    path that exists; the table keeps one entry per file object.) *)
Record File : Type := mkFile {
  fname : string;
  fdata : list byte;
  fclosed : bool
}.

(** What [os.Stat] finds at a path. *)
Inductive stat_entry : Type :=
| Directory
| Regular
| StatFails (c : syserr).

Record FileInfo : Type := mkFileInfo { IsDir : bool }.

(** The system calls the package performs, as they are recorded. *)
Inductive event : Type :=
| EvCreate (name : string) (e : option error)
| EvWrite (h : fd) (p : list byte) (n : Z) (e : option error)
| EvClose (h : fd) (e : option error).

Record World : Type := mkWorld {
  files : list File;           (* one entry per successful os.Create *)
  clock : list string;         (* coming results of time.Now().Format(time.RFC3339Nano) *)
  create_faults : list (option syserr);       (* outcome of the coming os.Create calls *)
  write_faults : list (option (nat * syserr)); (* coming writes: bytes accepted and cause *)
  close_faults : list (option syserr);        (* outcome of the coming closes *)
  tree : list (string * stat_entry);          (* what os.Stat sees *)
  trace : list event           (* system calls performed, oldest first *)
}.

Definition set_files (w : World) (fs : list File) : World :=
  mkWorld fs (clock w) (create_faults w) (write_faults w) (close_faults w) (tree w) (trace w).
Definition set_clock (w : World) (c : list string) : World :=
  mkWorld (files w) c (create_faults w) (write_faults w) (close_faults w) (tree w) (trace w).
Definition set_create_faults (w : World) (l : list (option syserr)) : World :=
  mkWorld (files w) (clock w) l (write_faults w) (close_faults w) (tree w) (trace w).
Definition set_write_faults (w : World) (l : list (option (nat * syserr))) : World :=
  mkWorld (files w) (clock w) (create_faults w) l (close_faults w) (tree w) (trace w).
Definition set_close_faults (w : World) (l : list (option syserr)) : World :=
  mkWorld (files w) (clock w) (create_faults w) (write_faults w) l (tree w) (trace w).
Definition record (w : World) (ev : event) : World :=
  mkWorld (files w) (clock w) (create_faults w) (write_faults w) (close_faults w) (tree w)
          (trace w ++ [ev]).

(** Replace the entry at index [h] of the file table. *)
Fixpoint update_file (fs : list File) (h : fd) (f : File) : list File :=
  match fs, h with
  | [], _ => []
  | _ :: rest, O => f :: rest
  | g :: rest, S h' => g :: update_file rest h' f
  end.

(** The time of an exhausted clock: Go's zero [time.Time], formatted. *)
Definition zero_time : string := "0001-01-01T00:00:00Z".

(** [time.Now().Format(time.RFC3339Nano)] *)
Definition time_Now_Format (w : World) : string * World :=
  match clock w with
  | [] => (zero_time, w)
  | t :: later => (t, set_clock w later)
  end.

(** [os.Create(name)]: on success a new open, empty file; on failure a nil
    file and a [*PathError] with operation ["open"]. *)
Definition os_Create (name : string) (w : World) : option fd * option error * World :=
  let outcome := hd None (create_faults w) in
  let w := set_create_faults w (tl (create_faults w)) in
  match outcome with
  | Some c =>
      let e := Some (PathError "open" name c) in
      (None, e, record w (EvCreate name e))
  | None =>
      let h := List.length (files w) in
      (Some h, None, record (set_files w (files w ++ [mkFile name [] false])) (EvCreate name None))
  end.

(** [f.Write(p)] on an [*os.File]: a nil file gives [os.ErrInvalid], a closed
    file gives [os.ErrClosed] inside a [*PathError] and writes nothing, an
    open file accepts all of [p] or, on a fault, a prefix of it. *)
Definition File_Write (f : option fd) (p : list byte) (w : World) : Z * option error * World :=
  match f with
  | None => (0, Some ErrInvalid, w)
  | Some h =>
      match nth_error (files w) h with
      | None => (0, Some ErrInvalid, w)
      | Some file =>
          if fclosed file then
            let e := Some (PathError "write" (fname file) ErrClosed) in
            (0, e, record w (EvWrite h p 0 e))
          else
            let outcome := hd None (write_faults w) in
            let w := set_write_faults w (tl (write_faults w)) in
            let k := match outcome with
                     | Some (k, _) => Nat.min k (List.length p)
                     | None => List.length p
                     end in
            let e := match outcome with
                     | Some (_, c) => Some (PathError "write" (fname file) c)
                     | None => None
                     end in
            let file' := mkFile (fname file) (fdata file ++ firstn k p) false in
            (Z.of_nat k, e, record (set_files w (update_file (files w) h file')) (EvWrite h p (Z.of_nat k) e))
      end
  end.

(** [f.Close()] on a non-nil [*os.File]: a closed file gives [os.ErrClosed];
    an open file is closed whatever the system call returns. *)
Definition File_Close (h : fd) (w : World) : option error * World :=
  match nth_error (files w) h with
  | None => (Some ErrInvalid, w)
  | Some file =>
      if fclosed file then
        let e := Some (PathError "close" (fname file) ErrClosed) in
        (e, record w (EvClose h e))
      else
        let outcome := hd None (close_faults w) in
        let w := set_close_faults w (tl (close_faults w)) in
        let e := match outcome with
                 | Some c => Some (PathError "close" (fname file) c)
                 | None => None
                 end in
        let file' := mkFile (fname file) (fdata file) true in
        (e, record (set_files w (update_file (files w) h file')) (EvClose h e))
  end.

(** [os.Stat(name)]: a nil [FileInfo] together with a [*PathError] when the
    call fails, a [FileInfo] and the nil error otherwise.  A path that is
    not in the tree does not exist. *)
Fixpoint lookup_path (t : list (string * stat_entry)) (name : string) : stat_entry :=
  match t with
  | [] => StatFails ENOENT
  | (p, s) :: rest => if String.eqb p name then s else lookup_path rest name
  end.

Definition os_Stat (w : World) (name : string) : option FileInfo * option error :=
  match lookup_path (tree w) name with
  | Directory => (Some (mkFileInfo true), None)
  | Regular => (Some (mkFileInfo false), None)
  | StatFails c => (None, Some (PathError "stat" name c))
  end.

(** ** The package *)

Record WriteSplitter : Type := mkWriteSplitter {
  Limit : Z;            (* how many write ops before splitting the file *)
  Dir : string;
  Prefix : string;
  Bytes : bool;         (* split by bytes and not lines *)
  numBytes : Z;         (* internal byte count *)
  numLines : Z;         (* internal line count *)
  handle : option fd    (* embedded file; None is the nil pointer *)
}.

Definition set_Dir (ws : WriteSplitter) (d : string) : WriteSplitter :=
  mkWriteSplitter (Limit ws) d (Prefix ws) (Bytes ws) (numBytes ws) (numLines ws) (handle ws).
Definition set_Prefix (ws : WriteSplitter) (p : string) : WriteSplitter :=
  mkWriteSplitter (Limit ws) (Dir ws) p (Bytes ws) (numBytes ws) (numLines ws) (handle ws).
Definition set_counts (ws : WriteSplitter) (lines bytes : Z) : WriteSplitter :=
  mkWriteSplitter (Limit ws) (Dir ws) (Prefix ws) (Bytes ws) bytes lines (handle ws).
Definition set_handle (ws : WriteSplitter) (h : option fd) : WriteSplitter :=
  mkWriteSplitter (Limit ws) (Dir ws) (Prefix ws) (Bytes ws) (numBytes ws) (numLines ws) h.

(** [LineSplitter(limit, dir, prefix)] *)
Definition LineSplitter (limit : Z) (dir prefix : string) : WriteSplitter :=
  mkWriteSplitter limit (filepath.Clean dir) (filepath.Clean prefix) false 0 0 None.

(** [ByteSplitter(limit, dir, prefix)] *)
Definition ByteSplitter (limit : Z) (dir prefix : string) : WriteSplitter :=
  mkWriteSplitter limit (filepath.Clean dir) (filepath.Clean prefix) true 0 0 None.

(** [ws.Close()] *)
Definition Close (ws : WriteSplitter) (w : World) : option error * WriteSplitter * World :=
  match handle ws with
  | Some h =>
      let ws := set_counts ws 0 0 in
      let '(e, w) := File_Close h w in
      (e, ws, w)
  | None => (Some ErrNotAFile, ws, w)
  end.

(** [ws.create()] *)
Definition create (ws : WriteSplitter) (w : World) : option error * WriteSplitter * World :=
  let ws := if String.eqb (Dir ws) "." then set_Dir ws "" else ws in
  let ws := if String.eqb (Prefix ws) "." then set_Prefix ws "" else ws in
  let '(stamp, w) := time_Now_Format w in
  let filename := filepath.Join [Dir ws; String.append (Prefix ws) stamp] in
  let '(f, e, w) := os_Create filename w in
  match e with
  | None => (e, set_handle ws f, w)
  | Some _ => (e, set_handle ws None, w)
  end.

(** The [switch] of [Write]: the first case falls through into the body of
    the second, so the body runs when either condition holds. *)
Definition switch_rotate (ws : WriteSplitter) : bool :=
  if (0 <? Limit ws) && Bytes ws && (Limit ws <=? numBytes ws) then true
  else if (0 <? Limit ws) && (Limit ws <=? numLines ws) then true
  else false.

(** [ws.Write(p)] *)
Definition Write (ws : WriteSplitter) (p : list byte) (w : World)
  : Z * option error * WriteSplitter * World :=
  let '(e, ws, w) :=
    match handle ws with
    | None => create ws w
    | Some _ => (None, ws, w)
    end in
  let '(e, ws, w) :=
    if switch_rotate ws then
      let '(_, ws, w) := Close ws w in
      create ws w
    else (e, ws, w) in
  match e with
  | Some _ => (0, e, ws, w)
  | None =>
      let '(n, e, w) := File_Write (handle ws) p w in
      (n, e, set_counts ws (GoInt.add (numLines ws) 1) (GoInt.add (numBytes ws) n), w)
  end.

(** The result of a call that may panic. *)
Inductive outcome (A : Type) : Type :=
| Returns (a : A)
| Panics.
Arguments Returns {A} a.
Arguments Panics {A}.

(** [CheckDir(dir)].  The operands of [||] are evaluated from left to
    right; [stat.IsDir()] on the nil [FileInfo] is a nil dereference. *)
Definition CheckDir (dir : string) (w : World) : outcome (option error) :=
  let dir := filepath.Clean dir in
  let '(stat, e) := os_Stat w dir in
  if os_IsNotExist e then Returns (Some ErrNotADir)
  else
    match stat with
    | None => Panics
    | Some info =>
        if negb (IsDir info) then Returns (Some ErrNotADir)
        else if os_IsPermission e then Returns (Some ErrNotADir)
        else Returns None
    end.

(** ** Running several writes, and observations on worlds *)

(** Successive [Write] calls on the same sink, results dropped. *)
Fixpoint run_writes (ws : WriteSplitter) (ps : list (list byte)) (w : World)
  : WriteSplitter * World :=
  match ps with
  | [] => (ws, w)
  | p :: rest =>
      let '(_, _, ws, w) := Write ws p w in
      run_writes ws rest w
  end.

(** Number of files created so far. *)
Definition created (w : World) : nat := List.length (files w).

(** The system calls performed on the way from world [w0] to world [w]. *)
Definition events_since (w0 w : World) : list event :=
  skipn (List.length (trace w0)) (trace w).

(** On every sink the package can produce, a nil handle comes with zero
    counters.  The counters are private and start at zero; the handle is nil
    at the start and after a failed creation, and a creation is attempted
    either on a sink without a handle or right after the [Close] of a
    rotation, which zeroes the counters. *)
Definition consistent (ws : WriteSplitter) : Prop :=
  handle ws = None -> numLines ws = 0 /\ numBytes ws = 0.

Definition bytes_of (s : string) : list byte := list_byte_of_string s.

Definition is_close (ev : event) : bool :=
  match ev with EvClose _ _ => true | _ => false end.

Definition is_write (ev : event) : bool :=
  match ev with EvWrite _ _ _ _ => true | _ => false end.

(** The result of closing an open file named [name]. *)
Definition close_result (w : World) (name : string) : option error :=
  match hd None (close_faults w) with
  | Some c => Some (PathError "close" name c)
  | None => None
  end.

(** Bytes accepted by, and error of, a write of [p] to an open file. *)
Definition write_count (w : World) (p : list byte) : nat :=
  match hd None (write_faults w) with
  | Some (k, _) => Nat.min k (List.length p)
  | None => List.length p
  end.

Definition write_result (w : World) (name : string) : option error :=
  match hd None (write_faults w) with
  | Some (_, c) => Some (PathError "write" name c)
  | None => None
  end.

(** What [create] does to the sink's directory and prefix: a bare ["."]
    becomes the empty string. *)
Definition collapse (ws : WriteSplitter) : WriteSplitter :=
  let ws := if String.eqb (Dir ws) "." then set_Dir ws "" else ws in
  if String.eqb (Prefix ws) "." then set_Prefix ws "" else ws.

(** The name [create] gives to the next file. *)
Definition create_name (ws : WriteSplitter) (w : World) : string :=
  filepath.Join [Dir (collapse ws);
                 String.append (Prefix (collapse ws)) (fst (time_Now_Format w))].

(** No byte was written on the way from [w] to [w']: every file holds the
    data it held. *)
Definition same_files_data (w w' : World) : Prop :=
  map fdata (files w') = map fdata (files w).

(** ** Sequences of calls *)

(** A call of the sink's two methods. *)
Inductive call : Type :=
| CallWrite (p : list byte)
| CallClose.

(** Successive calls on the same sink, results dropped. *)
Fixpoint run_calls (ws : WriteSplitter) (cs : list call) (w : World)
  : WriteSplitter * World :=
  match cs with
  | [] => (ws, w)
  | CallWrite p :: rest =>
      let '(_, _, ws, w) := Write ws p w in
      run_calls ws rest w
  | CallClose :: rest =>
      let '(_, ws, w) := Close ws w in
      run_calls ws rest w
  end.



(** Only the file of the sink's handle may be open. *)
Definition one_open (ws : WriteSplitter) (w : World) : Prop :=
  forall (i : fd) (f : File),
    nth_error (files w) i = Some f -> fclosed f = false -> handle ws = Some i.

(** The byte counter is the size of the open file of the handle. *)
Definition counts_bytes (ws : WriteSplitter) (w : World) : Prop :=
  forall (h : fd) (f : File),
    handle ws = Some h -> nth_error (files w) h = Some f -> fclosed f = false ->
    numBytes ws = GoInt.wrap (Z.of_nat (List.length (fdata f))).


(** No coming [os.Create] fails. *)
Definition no_create_faults (w : World) : Prop :=
  Forall (fun o => o = None) (create_faults w).

(** A failed write to the closed file [h] named [name]. *)
Definition is_closed_write (h : fd) (name : string) (ev : event) : Prop :=
  exists p, ev = EvWrite h p 0 (Some (PathError "write" name ErrClosed)).

(** A write to the file [h]. *)
Definition is_write_to (h : fd) (ev : event) : Prop :=
  exists p n e, ev = EvWrite h p n e.

(** The end of a [Write] that creates a file: the creation, and the write
    to the new file if the creation succeeded. *)
Definition write_after_create (ws0 : WriteSplitter) (p : list byte) (w0 : World)
  : Z * option error * WriteSplitter * World :=
  let '(e, ws1, w1) := create ws0 w0 in
  match e with
  | Some _ => (0, e, ws1, w1)
  | None =>
      let '(n, e, w') := File_Write (handle ws1) p w1 in
      (n, e, set_counts ws1 (GoInt.add (numLines ws1) 1) (GoInt.add (numBytes ws1) n), w')
  end.

(** No file is open. *)
Definition all_closed (w : World) : Prop :=
  forall (i : fd) (f : File), nth_error (files w) i = Some f -> fclosed f = true.

(** ** Examples of worlds and sinks *)

Module Demo.

(** A world with a running clock in which no system call fails. *)
Definition calm : World :=
  mkWorld [] ["2020-01-01T00:00:00.000000001Z"; "2020-01-01T00:00:00.000000002Z";
              "2020-01-01T00:00:00.000000003Z"] [] [] [] [] [].

(** The same world, but the first close fails with an I/O error. *)
Definition bad_close : World :=
  mkWorld [] ["2020-01-01T00:00:00.000000001Z"] [] [] [Some EIO] [] [].

(** The same world, but the first creation fails: no space left. *)
Definition bad_create : World :=
  mkWorld [] ["2020-01-01T00:00:00.000000001Z"; "2020-01-01T00:00:00.000000002Z"]
          [Some ENOSPC] [] [] [] [].

(** A directory tree: a directory, a regular file, and a place that may
    not be searched. *)
Definition tree_world : World :=
  mkWorld [] [] [] [] []
          [("/var/log", Directory); ("/etc/passwd", Regular);
           ("/root/private/logs", StatFails EACCES)] [].

(** The same world, but the first write accepts one byte and then fails:
    no space left. *)
Definition partial_write : World :=
  mkWorld [] ["2020-01-01T00:00:00.000000001Z"] [] [Some (1%nat, ENOSPC)] [] [] [].

Definition line3 : WriteSplitter := LineSplitter 3 "/tmp/x" "log-".
Definition byte10 : WriteSplitter := ByteSplitter 10 "/tmp/x" "log-".

(** [line3] after one write of ["a"], in the calm world and in the world
    whose close fails. *)
Definition line3_open : WriteSplitter * World :=
  Eval vm_compute in run_writes line3 [bytes_of "a"] calm.
Definition line3_open_bad_close : WriteSplitter * World :=
  Eval vm_compute in run_writes line3 [bytes_of "a"] bad_close.

(** [byte10] after one write of ["hi"] in the calm world. *)
Definition byte10_open : WriteSplitter * World :=
  Eval vm_compute in run_writes byte10 [bytes_of "hi"] calm.

(** A sink that never rotates. *)
Definition line0 : WriteSplitter := LineSplitter 0 "/tmp/x" "log-".


End Demo.

(** ** Basic facts *)

(** [Clean] and [Join] on entries of the table that Go tests them with. *)
Lemma Clean_examples :
  map filepath.Clean
      [""; "."; "./"; "abc/"; "abc//def//ghi"; "/./abc/def"; "abc/def/../.."; "/../abc";
       "abc/def/../../.."; "abc/../../././../def"] =
    ["."; "."; "."; "abc"; "abc/def/ghi"; "/abc/def"; "."; "/abc"; ".."; "../../def"].
Proof. reflexivity. Qed.

Lemma Join_examples :
  map filepath.Join [["a"; "b"]; [""; "b"]; ["a"; ""]; [""; ""]; ["/tmp/x"; "log-1"]] =
    ["a/b"; "b"; "a"; ""; "/tmp/x/log-1"].
Proof. reflexivity. Qed.

Lemma wrap_in_range (z : Z) : GoInt.in_range z -> GoInt.wrap z = z.
Proof.
  unfold GoInt.in_range, GoInt.min_int, GoInt.max_int, GoInt.wrap.
  intros H. rewrite Z.mod_small; lia.
Qed.

Lemma add_in_range (a b : Z) : GoInt.in_range (a + b) -> GoInt.add a b = a + b.
Proof. apply wrap_in_range. Qed.

Lemma events_since_app (w w' : World) (evs : list event) :
  trace w' = trace w ++ evs -> events_since w w' = evs.
Proof.
  unfold events_since. intros ->.
  induction (trace w) as [|x l IH]; simpl; auto.
Qed.

Lemma nth_error_update_same (fs : list File) (h : fd) (f g : File) :
  nth_error fs h = Some f -> nth_error (update_file fs h g) h = Some g.
Proof.
  revert h. induction fs as [|x fs IH]; intros [|h]; simpl; try discriminate; auto.
Qed.

Lemma length_update_file (fs : list File) (h : fd) (g : File) :
  List.length (update_file fs h g) = List.length fs.
Proof.
  revert h. induction fs as [|x fs IH]; intros [|h]; simpl; auto.
Qed.

Lemma nth_error_snoc_new (fs : list File) (g : File) :
  nth_error (fs ++ [g]) (List.length fs) = Some g.
Proof.
  rewrite nth_error_app2 by lia. now rewrite Nat.sub_diag.
Qed.

(** A nil handle with zero counters never asks for a rotation. *)
Lemma switch_rotate_zero (ws : WriteSplitter) :
  numLines ws = 0 -> numBytes ws = 0 -> switch_rotate ws = false.
Proof.
  unfold switch_rotate. intros -> ->.
  destruct (0 <? Limit ws) eqn:H0; simpl; auto.
  apply Z.ltb_lt in H0.
  assert ((Limit ws <=? 0) = false) as -> by (apply Z.leb_gt; lia).
  now rewrite andb_false_r.
Qed.

Lemma switch_rotate_no_limit (ws : WriteSplitter) :
  Limit ws <= 0 -> switch_rotate ws = false.
Proof.
  unfold switch_rotate. intros H.
  assert ((0 <? Limit ws) = false) as -> by (apply Z.ltb_ge; lia).
  reflexivity.
Qed.

(** *** What the system calls do *)

Lemma File_Close_open (h : fd) (w : World) (f : File) :
  nth_error (files w) h = Some f -> fclosed f = false ->
  File_Close h w =
    (close_result w (fname f),
     record (set_files (set_close_faults w (tl (close_faults w)))
                       (update_file (files w) h (mkFile (fname f) (fdata f) true)))
            (EvClose h (close_result w (fname f)))).
Proof.
  intros Hf Ho. unfold File_Close, close_result. simpl. rewrite Hf, Ho. reflexivity.
Qed.

Lemma File_Write_closed (h : fd) (p : list byte) (w : World) (f : File) :
  nth_error (files w) h = Some f -> fclosed f = true ->
  File_Write (Some h) p w =
    (0, Some (PathError "write" (fname f) ErrClosed),
     record w (EvWrite h p 0 (Some (PathError "write" (fname f) ErrClosed)))).
Proof.
  intros Hf Ho. unfold File_Write. rewrite Hf, Ho. reflexivity.
Qed.

Lemma File_Write_open (h : fd) (p : list byte) (w : World) (f : File) :
  nth_error (files w) h = Some f -> fclosed f = false ->
  File_Write (Some h) p w =
    (Z.of_nat (write_count w p), write_result w (fname f),
     record (set_files (set_write_faults w (tl (write_faults w)))
                       (update_file (files w) h
                          (mkFile (fname f) (fdata f ++ firstn (write_count w p) p) false)))
            (EvWrite h p (Z.of_nat (write_count w p)) (write_result w (fname f)))).
Proof.
  intros Hf Ho. unfold File_Write, write_count, write_result. simpl. rewrite Hf, Ho.
  reflexivity.
Qed.

(** *** [Write] by cases *)

(** An open handle and no rotation due: the call is the underlying write. *)
Lemma Write_plain (ws : WriteSplitter) (p : list byte) (w : World) (h : fd) :
  handle ws = Some h -> switch_rotate ws = false ->
  Write ws p w =
    let '(n, e, w') := File_Write (Some h) p w in
    (n, e, set_counts ws (GoInt.add (numLines ws) 1) (GoInt.add (numBytes ws) n), w').
Proof.
  intros Hh Hs. unfold Write. rewrite Hh, Hs, Hh. reflexivity.
Qed.


(** ** [Close] *)

(** C10: on a sink with an open handle, [Close] zeroes both counters
    whatever the underlying close returns; when that close fails, the error
    is returned and the counters are zero all the same (nothing is rolled
    back, and the handle is kept). *)
Theorem Close_resets_counters_even_on_error
  (ws : WriteSplitter) (w : World) (h : fd) (f : File) :
  handle ws = Some h -> nth_error (files w) h = Some f -> fclosed f = false ->
  let '(e, ws', w') := Close ws w in
  e = close_result w (fname f) /\
  (forall c, hd None (close_faults w) = Some c ->
             e = Some (PathError "close" (fname f) c)) /\
  numLines ws' = 0 /\ numBytes ws' = 0 /\
  ws' = set_counts ws 0 0.
Proof.
  intros Hh Hf Ho. unfold Close. rewrite Hh.
  rewrite (File_Close_open h w f Hf Ho). simpl.
  repeat split; auto.
  intros c Hc. unfold close_result. now rewrite Hc.
Qed.

Lemma Close_resets_counters_even_on_error_witness :
  let ws := fst Demo.line3_open_bad_close in
  let w := snd Demo.line3_open_bad_close in
  let f := mkFile "/tmp/x/log-2020-01-01T00:00:00.000000001Z" (bytes_of "a") false in
  handle ws = Some 0%nat /\ nth_error (files w) 0 = Some f /\ fclosed f = false /\
  numLines ws = 1 /\ numBytes ws = 1 /\
  (let '(e, ws', w') := Close ws w in
   e = Some (PathError "close" "/tmp/x/log-2020-01-01T00:00:00.000000001Z" EIO) /\
   numLines ws' = 0 /\ numBytes ws' = 0).
Proof.
  cbv zeta.
  pose proof (Close_resets_counters_even_on_error
                (fst Demo.line3_open_bad_close) (snd Demo.line3_open_bad_close) 0%nat
                (mkFile "/tmp/x/log-2020-01-01T00:00:00.000000001Z" (bytes_of "a") false)
                eq_refl eq_refl eq_refl) as H.
  destruct (Close (fst Demo.line3_open_bad_close) (snd Demo.line3_open_bad_close))
    as [[e ws'] w'].
  destruct H as (_ & He & Hl & Hb & _).
  repeat split; auto.
Defined.

(** C1 (amended): on a sink with an open handle, [Close] zeroes both
    counters, closes the file and returns the result of that close, but it
    keeps the handle.  So the write that follows an explicit close creates
    nothing: it goes to the closed file, writes no byte and returns the
    closed-file error. *)
Theorem Close_keeps_handle_next_Write_fails
  (ws : WriteSplitter) (w : World) (h : fd) (f : File) (p : list byte) :
  handle ws = Some h -> nth_error (files w) h = Some f -> fclosed f = false ->
  let '(e, ws1, w1) := Close ws w in
  let '(n, e2, ws2, w2) := Write ws1 p w1 in
  (e = close_result w (fname f) /\
   numLines ws1 = 0 /\ numBytes ws1 = 0 /\
   handle ws1 = Some h /\
   nth_error (files w1) h = Some (mkFile (fname f) (fdata f) true) /\
   events_since w w1 = [EvClose h e]) /\
  (n = 0 /\
   e2 = Some (PathError "write" (fname f) ErrClosed) /\
   handle ws2 = Some h /\
   files w2 = files w1 /\
   created w2 = created w /\
   events_since w1 w2 = [EvWrite h p 0 e2]).
Proof.
  intros Hh Hf Ho. unfold Close. rewrite Hh.
  rewrite (File_Close_open h w f Hf Ho).
  set (ws1 := set_counts ws 0 0).
  set (w1 := record _ _).
  assert (Hf1 : nth_error (files w1) h = Some (mkFile (fname f) (fdata f) true)).
  { subst w1. simpl. eapply nth_error_update_same; eauto. }
  assert (Hs : switch_rotate ws1 = false) by (apply switch_rotate_zero; reflexivity).
  rewrite (Write_plain ws1 p w1 h Hh Hs).
  rewrite (File_Write_closed h p w1 _ Hf1 eq_refl).
  simpl fname. split.
  - repeat split; auto. apply events_since_app. reflexivity.
  - repeat split; auto.
    + subst w1. unfold created. simpl. apply length_update_file.
    + apply events_since_app. reflexivity.
Qed.

Lemma Close_keeps_handle_next_Write_fails_witness :
  let ws := fst Demo.line3_open in
  let w := snd Demo.line3_open in
  let f := mkFile "/tmp/x/log-2020-01-01T00:00:00.000000001Z" (bytes_of "a") false in
  handle ws = Some 0%nat /\ nth_error (files w) 0 = Some f /\ fclosed f = false /\
  (let '(e, ws1, w1) := Close ws w in
   let '(n, e2, ws2, w2) := Write ws1 (bytes_of "b") w1 in
   e = None /\ handle ws1 = Some 0%nat /\ n = 0 /\
   e2 = Some (PathError "write" "/tmp/x/log-2020-01-01T00:00:00.000000001Z" ErrClosed) /\
   created w2 = 1%nat).
Proof.
  cbv zeta.
  pose proof (Close_keeps_handle_next_Write_fails
                (fst Demo.line3_open) (snd Demo.line3_open) 0%nat
                (mkFile "/tmp/x/log-2020-01-01T00:00:00.000000001Z" (bytes_of "a") false)
                (bytes_of "b") eq_refl eq_refl eq_refl) as H.
  destruct (Close (fst Demo.line3_open) (snd Demo.line3_open)) as [[e ws1] w1].
  destruct (Write ws1 (bytes_of "b") w1) as [[[n e2] ws2] w2].
  destruct H as ((He & _ & _ & Hh & _) & (Hn & He2 & _ & _ & Hc & _)).
  repeat split; auto.
Defined.

(** C1, as stated, fails: after a write and a successful explicit close the
    handle is still set, and the next write creates no file and fails. *)
Lemma Close_clears_handle_counterexample :
  let '(ws, w) := run_writes (LineSplitter 3 "/tmp/x" "log-") [bytes_of "a"] Demo.calm in
  let '(e, ws1, w1) := Close ws w in
  let '(n, e2, ws2, w2) := Write ws1 (bytes_of "b") w1 in
  nth_error (files w) 0 =
    Some (mkFile "/tmp/x/log-2020-01-01T00:00:00.000000001Z" (bytes_of "a") false) /\
  handle ws = Some 0%nat /\
  e = None /\
  handle ws1 = Some 0%nat /\ handle ws1 <> None /\
  (n, e2) = (0, Some (PathError "write" "/tmp/x/log-2020-01-01T00:00:00.000000001Z" ErrClosed)) /\
  e2 <> None /\
  created w2 = created w /\ events_since w1 w2 = [EvWrite 0 (bytes_of "b") 0 e2].
Proof.
  vm_compute. repeat split; auto; discriminate.
Qed.

(** ** [create] *)

Lemma create_succeeds (ws : WriteSplitter) (w : World) :
  hd None (create_faults w) = None ->
  exists w',
    create ws w = (None, set_handle (collapse ws) (Some (created w)), w') /\
    files w' = files w ++ [mkFile (create_name ws w) [] false] /\
    trace w' = trace w ++ [EvCreate (create_name ws w) None] /\
    create_faults w' = tl (create_faults w) /\
    write_faults w' = write_faults w /\
    close_faults w' = close_faults w.
Proof.
  intros Hc. unfold create, create_name, collapse, os_Create, time_Now_Format, created.
  destruct (clock w) as [|t later]; simpl; rewrite Hc; simpl;
    eexists; repeat split; reflexivity.
Qed.

Lemma create_fails (ws : WriteSplitter) (w : World) (c : syserr) :
  hd None (create_faults w) = Some c ->
  exists w',
    create ws w =
      (Some (PathError "open" (create_name ws w) c), set_handle (collapse ws) None, w') /\
    files w' = files w /\
    trace w' = trace w ++ [EvCreate (create_name ws w) (Some (PathError "open" (create_name ws w) c))] /\
    create_faults w' = tl (create_faults w) /\
    write_faults w' = write_faults w /\
    close_faults w' = close_faults w.
Proof.
  intros Hc. unfold create, create_name, collapse, os_Create, time_Now_Format.
  destruct (clock w) as [|t later]; simpl; rewrite Hc; simpl;
    eexists; repeat split; reflexivity.
Qed.

Lemma switch_rotate_collapse (ws : WriteSplitter) (h : option fd) :
  switch_rotate (set_handle (collapse ws) h) = switch_rotate ws.
Proof.
  unfold switch_rotate, collapse.
  destruct (String.eqb (Dir ws) "."); simpl;
    destruct (String.eqb (Prefix ws) "."); reflexivity.
Qed.

Lemma counters_collapse (ws : WriteSplitter) (h : option fd) :
  numLines (set_handle (collapse ws) h) = numLines ws /\
  numBytes (set_handle (collapse ws) h) = numBytes ws /\
  Limit (set_handle (collapse ws) h) = Limit ws /\
  Bytes (set_handle (collapse ws) h) = Bytes ws.
Proof.
  unfold collapse.
  destruct (String.eqb (Dir ws) "."); simpl;
    destruct (String.eqb (Prefix ws) "."); simpl; auto.
Qed.

Lemma create_name_ext (ws ws' : WriteSplitter) (w w' : World) :
  Dir ws' = Dir ws -> Prefix ws' = Prefix ws -> clock w' = clock w ->
  create_name ws' w' = create_name ws w.
Proof.
  intros Hd Hp Hc. unfold create_name, collapse, time_Now_Format.
  rewrite Hd, Hc.
  destruct (String.eqb (Dir ws) "."); simpl; rewrite Hp;
    destruct (String.eqb (Prefix ws) "."); simpl; try rewrite Hd; try rewrite Hp;
    destruct (clock w); reflexivity.
Qed.

(** *** [Close], whatever state the handle is in *)

Lemma map_fdata_update (fs : list File) (h : fd) (f : File) (b : bool) :
  nth_error fs h = Some f ->
  map fdata (update_file fs h (mkFile (fname f) (fdata f) b)) = map fdata fs.
Proof.
  revert h. induction fs as [|x fs IH]; intros [|h] H; simpl in *; try discriminate.
  - now inversion H.
  - f_equal. now apply IH.
Qed.

Lemma File_Close_frame (h : fd) (w : World) :
  let '(e, w') := File_Close h w in
  same_files_data w w' /\ created w' = created w /\
  clock w' = clock w /\ create_faults w' = create_faults w /\
  write_faults w' = write_faults w /\
  exists evs, trace w' = trace w ++ evs /\ existsb is_write evs = false /\
              (evs = [] \/ evs = [EvClose h e]).
Proof.
  unfold File_Close, same_files_data, created.
  destruct (nth_error (files w) h) as [f|] eqn:Hf.
  - destruct (fclosed f); simpl.
    + repeat split; auto. eexists; repeat split; eauto.
    + repeat split; auto.
      * now apply map_fdata_update.
      * apply length_update_file.
      * eexists; repeat split; eauto.
  - repeat split; auto. exists []. rewrite app_nil_r. auto.
Qed.

Lemma Close_frame (ws : WriteSplitter) (w : World) :
  let '(e, ws', w') := Close ws w in
  (handle ws' = handle ws /\ Limit ws' = Limit ws /\ Bytes ws' = Bytes ws /\
   Dir ws' = Dir ws /\ Prefix ws' = Prefix ws) /\
  (handle ws <> None -> numLines ws' = 0 /\ numBytes ws' = 0) /\
  (handle ws = None -> ws' = ws /\ w' = w /\ e = Some ErrNotAFile) /\
  same_files_data w w' /\ created w' = created w /\
  clock w' = clock w /\ create_faults w' = create_faults w /\
  write_faults w' = write_faults w /\
  exists evs, trace w' = trace w ++ evs /\ existsb is_write evs = false.
Proof.
  unfold Close. destruct (handle ws) as [h|] eqn:Hh.
  - pose proof (File_Close_frame h w) as H.
    destruct (File_Close h w) as [e w'].
    destruct H as (H1 & H2 & H3 & H4 & H5 & evs & H6 & H7 & _).
    simpl. repeat split; auto; try congruence. eauto.
  - repeat split; auto; try congruence.
    exists []. now rewrite app_nil_r.
Qed.

(** *** [Write] by cases, continued *)

(** No handle and no rotation due: create, then write to the new file. *)
Lemma Write_lazy (ws : WriteSplitter) (p : list byte) (w : World) :
  handle ws = None -> switch_rotate ws = false ->
  Write ws p w =
    let '(e, ws1, w1) := create ws w in
    match e with
    | Some _ => (0, e, ws1, w1)
    | None =>
        let '(n, e, w') := File_Write (handle ws1) p w1 in
        (n, e, set_counts ws1 (GoInt.add (numLines ws1) 1) (GoInt.add (numBytes ws1) n), w')
    end.
Proof.
  intros Hh Hs. unfold Write. rewrite Hh.
  destruct (hd None (create_faults w)) as [c|] eqn:Hc.
  - destruct (create_fails ws w c Hc) as (w' & -> & _).
    now rewrite switch_rotate_collapse, Hs.
  - destruct (create_succeeds ws w Hc) as (w' & -> & _).
    now rewrite switch_rotate_collapse, Hs.
Qed.

(** A handle and a rotation due: close, create, then write to the new file. *)
Lemma Write_rotate (ws : WriteSplitter) (p : list byte) (w : World) (h : fd) :
  handle ws = Some h -> switch_rotate ws = true ->
  Write ws p w =
    let '(_, ws0, w0) := Close ws w in
    let '(e, ws1, w1) := create ws0 w0 in
    match e with
    | Some _ => (0, e, ws1, w1)
    | None =>
        let '(n, e, w') := File_Write (handle ws1) p w1 in
        (n, e, set_counts ws1 (GoInt.add (numLines ws1) 1) (GoInt.add (numBytes ws1) n), w')
    end.
Proof.
  intros Hh Hs. unfold Write. rewrite Hh, Hs.
  destruct (Close ws w) as [[e0 ws0] w0]. reflexivity.
Qed.

(** ** Sinks the package can produce are [consistent] *)

Lemma constructors_consistent (limit : Z) (dir prefix : string) :
  consistent (LineSplitter limit dir prefix) /\ consistent (ByteSplitter limit dir prefix).
Proof. split; intros _; split; reflexivity. Qed.

Lemma Close_consistent (ws : WriteSplitter) (w : World) :
  consistent ws -> let '(_, ws', _) := Close ws w in consistent ws'.
Proof.
  intros Hc. unfold Close. destruct (handle ws) as [h|] eqn:Hh.
  - destruct (File_Close h w) as [e w']. intros _. split; reflexivity.
  - exact Hc.
Qed.

Lemma Write_consistent (ws : WriteSplitter) (p : list byte) (w : World) :
  consistent ws -> let '(_, _, ws', _) := Write ws p w in consistent ws'.
Proof.
  intros Hcons.
  assert (Hcreate : forall ws0 w0, numLines ws0 = 0 -> numBytes ws0 = 0 ->
            let '(_, _, ws', _) :=
              let '(e, ws1, w1) := create ws0 w0 in
              match e with
              | Some _ => (0, e, ws1, w1)
              | None =>
                  let '(n, e, w') := File_Write (handle ws1) p w1 in
                  (n, e, set_counts ws1 (GoInt.add (numLines ws1) 1)
                                    (GoInt.add (numBytes ws1) n), w')
              end in
            consistent ws').
  { intros ws0 w0 Hl Hb.
    destruct (hd None (create_faults w0)) as [c|] eqn:Hc.
    - destruct (create_fails ws0 w0 c Hc) as (w1 & -> & _).
      destruct (counters_collapse ws0 None) as (Hl1 & Hb1 & _).
      intros _. split; congruence.
    - destruct (create_succeeds ws0 w0 Hc) as (w1 & -> & _).
      cbv beta iota. destruct (File_Write _ p w1) as [[n e] w'].
      intros Hn. discriminate Hn. }
  destruct (handle ws) as [h|] eqn:Hh.
  - destruct (switch_rotate ws) eqn:Hs.
    + rewrite (Write_rotate ws p w h Hh Hs).
      pose proof (Close_frame ws w) as HC.
      destruct (Close ws w) as [[e0 ws0] w0].
      destruct HC as (_ & Hz & _).
      destruct Hz as [Hl0 Hb0]; [congruence|].
      apply Hcreate; auto.
    + rewrite (Write_plain ws p w h Hh Hs).
      destruct (File_Write (Some h) p w) as [[n e] w'].
      intros Hn. simpl in Hn. congruence.
  - destruct (Hcons Hh) as [Hl Hb].
    rewrite (Write_lazy ws p w Hh (switch_rotate_zero ws Hl Hb)).
    apply Hcreate; auto.
Qed.

(** The first write on a sink without a handle, when the creation and the
    underlying write both succeed. *)
Lemma Write_lazy_succeeds (ws : WriteSplitter) (p : list byte) (w : World) :
  handle ws = None -> switch_rotate ws = false ->
  hd None (create_faults w) = None -> hd None (write_faults w) = None ->
  exists w',
    Write ws p w =
      (Z.of_nat (List.length p), None,
       set_counts (set_handle (collapse ws) (Some (created w)))
                  (GoInt.add (numLines ws) 1)
                  (GoInt.add (numBytes ws) (Z.of_nat (List.length p))), w') /\
    nth_error (files w') (created w) = Some (mkFile (create_name ws w) p false) /\
    created w' = S (created w) /\
    trace w' = trace w ++ [EvCreate (create_name ws w) None;
                           EvWrite (created w) p (Z.of_nat (List.length p)) None].
Proof.
  intros Hh Hs Hc Hw. rewrite (Write_lazy ws p w Hh Hs).
  destruct (create_succeeds ws w Hc) as (w1 & -> & Hf & Ht & _ & Hwf & _).
  assert (Hnew : nth_error (files w1) (created w) = Some (mkFile (create_name ws w) [] false)).
  { rewrite Hf. apply nth_error_snoc_new. }
  cbv beta iota.
  change (handle (set_handle (collapse ws) (Some (created w)))) with (Some (created w)).
  rewrite (File_Write_open (created w) p w1 _ Hnew eq_refl).
  assert (Hk : write_count w1 p = List.length p).
  { unfold write_count. now rewrite Hwf, Hw. }
  assert (He : write_result w1 (create_name ws w) = None).
  { unfold write_result. now rewrite Hwf, Hw. }
  rewrite Hk. simpl fname. rewrite He. simpl fdata. rewrite firstn_all.
  destruct (counters_collapse ws (Some (created w))) as (-> & -> & _).
  eexists. split; [reflexivity|]. simpl. repeat split.
  - eapply nth_error_update_same; eauto.
  - unfold created. simpl. rewrite length_update_file, Hf, length_app. simpl. lia.
  - rewrite Ht, <- app_assoc. reflexivity.
Qed.

(** C6 (amended): on a sink whose handle is nil (a sink just built by a
    constructor, or one whose last creation failed) [Close] returns
    [ErrNotAFile] and changes nothing, and the write that follows creates a
    file and succeeds, provided the creation and the underlying write do. *)
Theorem Close_nil_handle_then_Write
  (ws : WriteSplitter) (w : World) (p : list byte) :
  handle ws = None -> consistent ws ->
  hd None (create_faults w) = None -> hd None (write_faults w) = None ->
  let '(e, ws1, w1) := Close ws w in
  let '(n, e2, ws2, w2) := Write ws1 p w1 in
  (e = Some ErrNotAFile /\ ws1 = ws /\ w1 = w) /\
  (n = Z.of_nat (List.length p) /\ e2 = None /\
   handle ws2 = Some (created w) /\
   nth_error (files w2) (created w) = Some (mkFile (create_name ws w) p false) /\
   events_since w w2 = [EvCreate (create_name ws w) None; EvWrite (created w) p n None]).
Proof.
  intros Hh Hc Hcf Hwf. unfold Close. rewrite Hh.
  destruct (Hc Hh) as [Hl Hb].
  destruct (Write_lazy_succeeds ws p w Hh (switch_rotate_zero ws Hl Hb) Hcf Hwf)
    as (w2 & -> & Hf & _ & Ht).
  repeat split; auto.
  now apply events_since_app.
Qed.

Lemma Close_nil_handle_then_Write_witness :
  let ws := Demo.line3 in
  let w := Demo.calm in
  handle ws = None /\ consistent ws /\
  hd None (create_faults w) = None /\ hd None (write_faults w) = None /\
  (let '(e, ws1, w1) := Close ws w in
   let '(n, e2, ws2, w2) := Write ws1 (bytes_of "a") w1 in
   e = Some ErrNotAFile /\ n = 1 /\ e2 = None /\ handle ws2 = Some 0%nat /\
   nth_error (files w2) 0 =
     Some (mkFile "/tmp/x/log-2020-01-01T00:00:00.000000001Z" (bytes_of "a") false)).
Proof.
  cbv zeta.
  assert (Hc : consistent Demo.line3) by (intros _; split; reflexivity).
  pose proof (Close_nil_handle_then_Write Demo.line3 Demo.calm (bytes_of "a")
                eq_refl Hc eq_refl eq_refl) as H.
  destruct (Close Demo.line3 Demo.calm) as [[e ws1] w1].
  destruct (Write ws1 (bytes_of "a") w1) as [[[n e2] ws2] w2].
  destruct H as ((He & _) & (Hn & He2 & Hh & Hf & _)).
  repeat split; auto.
Defined.

(** C6, as stated, fails on a sink that was already explicitly closed: the
    handle is still set, so a second [Close] returns the closed-file error
    of the file, not [ErrNotAFile], and the write that follows fails. *)
Lemma Close_twice_counterexample :
  let '(ws, w) := run_writes (LineSplitter 3 "/tmp/x" "log-") [bytes_of "a"] Demo.calm in
  let '(_, ws1, w1) := Close ws w in
  let '(e, ws2, w2) := Close ws1 w1 in
  let '(n, e2, ws3, w3) := Write ws2 (bytes_of "b") w2 in
  nth_error (files w1) 0 =
    Some (mkFile "/tmp/x/log-2020-01-01T00:00:00.000000001Z" (bytes_of "a") true) /\
  e = Some (PathError "close" "/tmp/x/log-2020-01-01T00:00:00.000000001Z" ErrClosed) /\
  e <> Some ErrNotAFile /\
  (n, e2) = (0, Some (PathError "write" "/tmp/x/log-2020-01-01T00:00:00.000000001Z" ErrClosed)) /\
  created w3 = created w1.
Proof.
  vm_compute. repeat split; auto; discriminate.
Qed.

(** ** Creation failures *)

Lemma Write_nil_handle_creates (ws : WriteSplitter) (p : list byte) (w : World) :
  handle ws = None -> switch_rotate ws = false ->
  let '(_, _, _, w') := Write ws p w in
  exists name r rest, events_since w w' = EvCreate name r :: rest.
Proof.
  intros Hh Hs. rewrite (Write_lazy ws p w Hh Hs).
  destruct (hd None (create_faults w)) as [c|] eqn:Hc.
  - destruct (create_fails ws w c Hc) as (w1 & -> & _ & Ht & _).
    do 3 eexists. apply events_since_app. exact Ht.
  - destruct (create_succeeds ws w Hc) as (w1 & -> & Hf & Ht & _).
    assert (Hnew : nth_error (files w1) (created w) = Some (mkFile (create_name ws w) [] false)).
    { rewrite Hf. apply nth_error_snoc_new. }
    cbv beta iota.
    change (handle (set_handle (collapse ws) (Some (created w)))) with (Some (created w)).
    rewrite (File_Write_open (created w) p w1 _ Hnew eq_refl).
    do 3 eexists. apply events_since_app. simpl. rewrite Ht, <- app_assoc. reflexivity.
Qed.

(** C7: when the creation of a write call fails (the lazy one of a sink
    without a handle, or the one that follows a rotation), [Write] returns
    0 and the creation error, no byte reaches any file, the sink is left
    without a handle, and the next [Write] starts with a new creation. *)
Theorem Write_creation_fails
  (ws : WriteSplitter) (w : World) (p q : list byte) (c : syserr) :
  consistent ws ->
  handle ws = None \/ switch_rotate ws = true ->
  hd None (create_faults w) = Some c ->
  let '(n, e, ws1, w1) := Write ws p w in
  let '(_, _, _, w2) := Write ws1 q w1 in
  n = 0 /\ e = Some (PathError "open" (create_name ws w) c) /\
  handle ws1 = None /\
  existsb is_write (events_since w w1) = false /\
  same_files_data w w1 /\
  exists name r rest, events_since w1 w2 = EvCreate name r :: rest.
Proof.
  intros Hcons Hcase Hc.
  assert (Hnext : forall ws1 w1, handle ws1 = None -> numLines ws1 = 0 -> numBytes ws1 = 0 ->
            let '(_, _, _, w2) := Write ws1 q w1 in
            exists name r rest, events_since w1 w2 = EvCreate name r :: rest).
  { intros ws1 w1 H1 H2 H3.
    apply Write_nil_handle_creates; auto using switch_rotate_zero. }
  destruct (handle ws) as [h|] eqn:Hh.
  - (* a rotation is due *)
    destruct Hcase as [Hcase|Hs]; [discriminate|].
    rewrite (Write_rotate ws p w h Hh Hs).
    pose proof (Close_frame ws w) as HC.
    destruct (Close ws w) as [[e0 ws0] w0].
    destruct HC as ((_ & _ & _ & Hd & Hp) & Hz & _ & Hdata & _ & Hclk & Hcf & _ & evs & Ht0 & Hnw).
    destruct Hz as [Hl0 Hb0]; [congruence|].
    rewrite <- Hcf in Hc.
    destruct (create_fails ws0 w0 c Hc) as (w1 & -> & Hf & Ht & _).
    destruct (counters_collapse ws0 None) as (Hl1 & Hb1 & _).
    specialize (Hnext (set_handle (collapse ws0) None) w1 eq_refl
                      ltac:(congruence) ltac:(congruence)).
    destruct (Write (set_handle (collapse ws0) None) q w1) as [[[n2 e2] ws2] w2].
    rewrite (create_name_ext ws ws0 w w0 Hd Hp Hclk).
    repeat split; auto.
    + rewrite (events_since_app w w1 (evs ++ [EvCreate (create_name ws0 w0)
                 (Some (PathError "open" (create_name ws0 w0) c))])).
      * rewrite existsb_app, Hnw. reflexivity.
      * rewrite Ht, Ht0, <- app_assoc. reflexivity.
    + unfold same_files_data in *. now rewrite Hf.
  - (* no handle: the lazy creation *)
    destruct (Hcons Hh) as [Hl Hb].
    rewrite (Write_lazy ws p w Hh (switch_rotate_zero ws Hl Hb)).
    destruct (create_fails ws w c Hc) as (w1 & -> & Hf & Ht & _).
    destruct (counters_collapse ws None) as (Hl1 & Hb1 & _).
    specialize (Hnext (set_handle (collapse ws) None) w1 eq_refl
                      ltac:(congruence) ltac:(congruence)).
    destruct (Write (set_handle (collapse ws) None) q w1) as [[[n2 e2] ws2] w2].
    repeat split; auto.
    + rewrite (events_since_app w w1 _ Ht). reflexivity.
    + unfold same_files_data. now rewrite Hf.
Qed.

Lemma Write_creation_fails_witness :
  let ws := Demo.line3 in
  let w := Demo.bad_create in
  consistent ws /\ (handle ws = None \/ switch_rotate ws = true) /\
  hd None (create_faults w) = Some ENOSPC /\
  (let '(n, e, ws1, w1) := Write ws (bytes_of "a") w in
   let '(_, _, _, w2) := Write ws1 (bytes_of "b") w1 in
   n = 0 /\
   e = Some (PathError "open" "/tmp/x/log-2020-01-01T00:00:00.000000001Z" ENOSPC) /\
   handle ws1 = None /\ same_files_data w w1 /\
   exists name r rest, events_since w1 w2 = EvCreate name r :: rest).
Proof.
  cbv zeta.
  assert (Hc : consistent Demo.line3) by (intros _; split; reflexivity).
  pose proof (Write_creation_fails Demo.line3 Demo.bad_create (bytes_of "a") (bytes_of "b")
                ENOSPC Hc (or_introl eq_refl) eq_refl) as H.
  destruct (Write Demo.line3 (bytes_of "a") Demo.bad_create) as [[[n e] ws1] w1].
  destruct (Write ws1 (bytes_of "b") w1) as [[[n2 e2] ws2] w2].
  destruct H as (Hn & He & Hh & _ & Hd & Hnext).
  repeat split; auto.
Defined.

(** ** The underlying write *)

Lemma File_Write_frame (f : option fd) (p : list byte) (w : World) :
  let '(n, e, w') := File_Write f p w in
  0 <= n <= Z.of_nat (List.length p) /\
  created w' = created w /\
  create_faults w' = create_faults w /\
  (trace w' = trace w \/ exists h, f = Some h /\ trace w' = trace w ++ [EvWrite h p n e]).
Proof.
  unfold File_Write, created.
  destruct f as [h|]; [|repeat split; auto; lia].
  destruct (nth_error (files w) h) as [file|] eqn:Hf; [|repeat split; auto; lia].
  destruct (fclosed file); simpl.
  - repeat split; eauto; lia.
  - repeat split; eauto.
    + lia.
    + destruct (hd None (write_faults w)) as [[k c]|]; lia.
    + apply length_update_file.
Qed.

Lemma no_write_in (evs : list event) (h : fd) (q : list byte) (k : Z) (r : option error) :
  existsb is_write evs = false -> ~ In (EvWrite h q k r) evs.
Proof.
  intros H Hin.
  assert (existsb is_write evs = true) by (apply existsb_exists; eexists; split; eauto).
  congruence.
Qed.

(** The system calls of one [Write]: some calls that are not writes, then
    at most one write, of the whole of [p], whose result is the result of
    [Write] and is counted. *)
Lemma Write_shape (ws : WriteSplitter) (p : list byte) (w : World) :
  consistent ws ->
  let '(n, e, ws', w') := Write ws p w in
  exists pre post,
    trace w' = trace w ++ pre ++ post /\ existsb is_write pre = false /\
    (post = [] \/
     exists h, post = [EvWrite h p n e] /\ handle ws' = Some h /\
       numLines ws' = GoInt.add (if switch_rotate ws then 0 else numLines ws) 1 /\
       numBytes ws' = GoInt.add (if switch_rotate ws then 0 else numBytes ws) n /\
       0 <= n <= Z.of_nat (List.length p)).
Proof.
  intros Hcons.
  (* what the end of every case does: the underlying write and the counting *)
  assert (Htail : forall (ws1 : WriteSplitter) (w1 : World) (pre : list event) (l b : Z),
             trace w1 = trace w ++ pre -> existsb is_write pre = false ->
             numLines ws1 = l -> numBytes ws1 = b ->
             let '(n, e, w') := File_Write (handle ws1) p w1 in
             exists pre post,
               trace w' = trace w ++ pre ++ post /\ existsb is_write pre = false /\
               (post = [] \/
                exists h, post = [EvWrite h p n e] /\
                  handle (set_counts ws1 (GoInt.add (numLines ws1) 1)
                                     (GoInt.add (numBytes ws1) n)) = Some h /\
                  numLines (set_counts ws1 (GoInt.add (numLines ws1) 1)
                                       (GoInt.add (numBytes ws1) n)) = GoInt.add l 1 /\
                  numBytes (set_counts ws1 (GoInt.add (numLines ws1) 1)
                                       (GoInt.add (numBytes ws1) n)) = GoInt.add b n /\
                  0 <= n <= Z.of_nat (List.length p))).
  { intros ws1 w1 pre l b Ht Hpre Hl Hb.
    pose proof (File_Write_frame (handle ws1) p w1) as HF.
    destruct (File_Write (handle ws1) p w1) as [[n e] w'].
    destruct HF as (Hn & _ & _ & [Hsame|(h & Hh & Hev)]).
    - exists pre, []. rewrite app_nil_r, Hsame. auto.
    - exists pre, [EvWrite h p n e]. rewrite Hev, Ht, <- app_assoc.
      repeat split; auto. right. exists h. simpl. subst l b. auto. }
  destruct (handle ws) as [h|] eqn:Hh.
  - destruct (switch_rotate ws) eqn:Hs.
    + (* rotation *)
      rewrite (Write_rotate ws p w h Hh Hs).
      pose proof (Close_frame ws w) as HC.
      destruct (Close ws w) as [[e0 ws0] w0].
      destruct HC as (_ & Hz & _ & _ & _ & _ & _ & _ & evs & Ht0 & Hnw).
      destruct Hz as [Hl0 Hb0]; [congruence|].
      destruct (hd None (create_faults w0)) as [c|] eqn:Hc.
      * destruct (create_fails ws0 w0 c Hc) as (w1 & -> & _ & Ht & _).
        eexists (evs ++ [_]), []. rewrite app_nil_r, Ht, Ht0, <- app_assoc.
        repeat split; auto. now rewrite existsb_app, Hnw.
      * destruct (create_succeeds ws0 w0 Hc) as (w1 & -> & _ & Ht & _).
        cbv beta iota.
        destruct (counters_collapse ws0 (Some (created w0))) as (Hl1 & Hb1 & _).
        assert (HT := Htail (set_handle (collapse ws0) (Some (created w0))) w1
                        (evs ++ [EvCreate (create_name ws0 w0) None]) 0 0).
        destruct (File_Write _ p w1) as [[n e] w'].
        apply HT; try congruence.
        -- rewrite Ht, Ht0, <- app_assoc. reflexivity.
        -- now rewrite existsb_app, Hnw.
    + (* plain write *)
      rewrite (Write_plain ws p w h Hh Hs).
      pose proof (Htail ws w [] (numLines ws) (numBytes ws)) as HT.
      rewrite Hh in HT.
      destruct (File_Write (Some h) p w) as [[n e] w'].
      apply HT; auto. now rewrite app_nil_r.
  - (* lazy creation *)
    destruct (Hcons Hh) as [Hl Hb].
    pose proof (switch_rotate_zero ws Hl Hb) as Hs.
    rewrite (Write_lazy ws p w Hh Hs), Hs.
    destruct (hd None (create_faults w)) as [c|] eqn:Hc.
    + destruct (create_fails ws w c Hc) as (w1 & -> & _ & Ht & _).
      eexists [_], []. rewrite Ht. repeat split; auto.
    + destruct (create_succeeds ws w Hc) as (w1 & -> & _ & Ht & _).
      cbv beta iota.
      destruct (counters_collapse ws (Some (created w))) as (Hl1 & Hb1 & _).
      assert (HT := Htail (set_handle (collapse ws) (Some (created w))) w1
                      [EvCreate (create_name ws w) None] (numLines ws) (numBytes ws)).
      destruct (File_Write _ p w1) as [[n e] w'].
      apply HT; auto.
Qed.

(** C8: in every [Write] call that performs the underlying write, that
    write is given the whole of [p], its pair of results is what [Write]
    returns, the line counter is one more (in Go's [int]) than it was when
    the write was issued and the byte counter is larger by the number of
    bytes written; short of an overflow of [int] these are the plain sums.
    The counters at the time of the write are those of the sink, or zero
    when this call rotated. *)
Theorem Write_counts_and_returns_underlying
  (ws : WriteSplitter) (w : World) (p : list byte) :
  consistent ws ->
  let '(n, e, ws', w') := Write ws p w in
  forall (h : fd) (q : list byte) (k : Z) (r : option error),
    In (EvWrite h q k r) (events_since w w') ->
    q = p /\ n = k /\ e = r /\ handle ws' = Some h /\
    numLines ws' = GoInt.add (if switch_rotate ws then 0 else numLines ws) 1 /\
    numBytes ws' = GoInt.add (if switch_rotate ws then 0 else numBytes ws) k /\
    0 <= k <= Z.of_nat (List.length p) /\
    (GoInt.in_range ((if switch_rotate ws then 0 else numLines ws) + 1) ->
     numLines ws' = (if switch_rotate ws then 0 else numLines ws) + 1) /\
    (GoInt.in_range ((if switch_rotate ws then 0 else numBytes ws) + k) ->
     numBytes ws' = (if switch_rotate ws then 0 else numBytes ws) + k).
Proof.
  intros Hcons. pose proof (Write_shape ws p w Hcons) as H.
  destruct (Write ws p w) as [[[n e] ws'] w'].
  destruct H as (pre & post & Ht & Hpre & Hpost).
  intros h q k r Hin.
  rewrite (events_since_app w w' _ Ht) in Hin.
  apply in_app_or in Hin. destruct Hin as [Hin|Hin].
  - exfalso. eapply no_write_in; eauto.
  - destruct Hpost as [->|(h' & -> & Hh & Hl & Hb & Hn)]; [contradiction|].
    destruct Hin as [Heq|[]]. inversion Heq; subst.
    repeat split; auto; try lia.
    + intros Hr. rewrite Hl. now apply add_in_range.
    + intros Hr. rewrite Hb. now apply add_in_range.
Qed.

Lemma Write_counts_and_returns_underlying_witness :
  let ws := Demo.line3 in
  let w := Demo.partial_write in
  let name := "/tmp/x/log-2020-01-01T00:00:00.000000001Z" in
  consistent ws /\
  (let '(n, e, ws', w') := Write ws (bytes_of "abc") w in
   In (EvWrite 0 (bytes_of "abc") 1 (Some (PathError "write" name ENOSPC)))
      (events_since w w') /\
   n = 1 /\ e = Some (PathError "write" name ENOSPC) /\
   numLines ws' = 1 /\ numBytes ws' = 1).
Proof.
  cbv zeta.
  assert (Hc : consistent Demo.line3) by (intros _; split; reflexivity).
  split; [exact Hc|].
  pose proof (Write_counts_and_returns_underlying
                Demo.line3 Demo.partial_write (bytes_of "abc") Hc) as H.
  set (r := Write Demo.line3 (bytes_of "abc") Demo.partial_write) in *.
  vm_compute in r. subst r. cbv beta iota in H |- *.
  assert (Hin : In (EvWrite 0 (bytes_of "abc") 1
                      (Some (PathError "write" "/tmp/x/log-2020-01-01T00:00:00.000000001Z"
                                       ENOSPC)))
                   (events_since Demo.partial_write
                      (mkWorld
                         [mkFile "/tmp/x/log-2020-01-01T00:00:00.000000001Z" (bytes_of "a") false]
                         [] [] [] [] []
                         [EvCreate "/tmp/x/log-2020-01-01T00:00:00.000000001Z" None;
                          EvWrite 0 (bytes_of "abc") 1
                            (Some (PathError "write"
                                     "/tmp/x/log-2020-01-01T00:00:00.000000001Z" ENOSPC))]))).
  { right. left. reflexivity. }
  destruct (H _ _ _ _ Hin) as (_ & Hn & He & _ & Hl & Hb & _).
  repeat split; auto.
Defined.

(** ** The rotation decision *)






(** ** Sinks that never rotate *)

(** With no positive limit, a [Write] on a sink that has a handle is at
    most the underlying write: the handle stays, nothing is created. *)
Lemma Write_no_limit_open (ws : WriteSplitter) (p : list byte) (w : World) (h : fd) :
  Limit ws <= 0 -> handle ws = Some h ->
  let '(_, _, ws', w') := Write ws p w in
  Limit ws' = Limit ws /\ handle ws' = Some h /\ created w' = created w /\
  create_faults w' = create_faults w /\
  exists evs, trace w' = trace w ++ evs /\ forallb is_write evs = true.
Proof.
  intros Hl Hh.
  rewrite (Write_plain ws p w h Hh (switch_rotate_no_limit ws Hl)).
  pose proof (File_Write_frame (Some h) p w) as HF.
  destruct (File_Write (Some h) p w) as [[n e] w'].
  destruct HF as (_ & Hc & Hcf & [Hsame|(h' & _ & Hev)]); simpl; repeat split; auto.
  - exists []. now rewrite app_nil_r.
  - eexists. split; [exact Hev|reflexivity].
Qed.

Lemma run_writes_no_limit_open (ps : list (list byte)) :
  forall (ws : WriteSplitter) (w : World) (h : fd),
  Limit ws <= 0 -> handle ws = Some h ->
  let '(ws', w') := run_writes ws ps w in
  Limit ws' = Limit ws /\ handle ws' = Some h /\ created w' = created w /\
  exists evs, trace w' = trace w ++ evs /\ forallb is_write evs = true.
Proof.
  induction ps as [|p ps IH]; intros ws w h Hl Hh; simpl.
  - repeat split; auto. exists []. now rewrite app_nil_r.
  - pose proof (Write_no_limit_open ws p w h Hl Hh) as H1.
    destruct (Write ws p w) as [[[n e] ws1] w1].
    destruct H1 as (Hl1 & Hh1 & Hc1 & _ & evs1 & Ht1 & Hw1).
    assert (Hl1' : Limit ws1 <= 0) by lia.
    specialize (IH ws1 w1 h Hl1' Hh1).
    destruct (run_writes ws1 ps w1) as [ws' w'].
    destruct IH as (Hl2 & Hh2 & Hc2 & evs2 & Ht2 & Hw2).
    repeat split; try congruence.
    exists (evs1 ++ evs2). split.
    + rewrite Ht2, Ht1, app_assoc. reflexivity.
    + rewrite forallb_app, Hw1, Hw2. reflexivity.
Qed.

(** The first [Write] of a sink that never rotates, when the creation
    succeeds. *)
Lemma Write_no_limit_first (ws : WriteSplitter) (p : list byte) (w : World) :
  Limit ws <= 0 -> handle ws = None -> hd None (create_faults w) = None ->
  let '(_, _, ws', w') := Write ws p w in
  Limit ws' = Limit ws /\ handle ws' = Some (created w) /\ created w' = S (created w) /\
  exists evs, trace w' = trace w ++ EvCreate (create_name ws w) None :: evs /\
              forallb is_write evs = true.
Proof.
  intros Hl Hh Hc.
  rewrite (Write_lazy ws p w Hh (switch_rotate_no_limit ws Hl)).
  destruct (create_succeeds ws w Hc) as (w1 & -> & Hf & Ht & _).
  cbv beta iota.
  destruct (counters_collapse ws (Some (created w))) as (_ & _ & HL & _).
  pose proof (File_Write_frame (handle (set_handle (collapse ws) (Some (created w)))) p w1) as HF.
  destruct (File_Write _ p w1) as [[n e] w'].
  assert (Hc1 : created w1 = S (created w)).
  { unfold created. rewrite Hf, length_app. simpl. lia. }
  destruct HF as (_ & Hcr & _ & [Hsame|(h' & _ & Hev)]); simpl; repeat split; auto;
    try congruence.
  - exists []. rewrite Hsame, Ht. auto.
  - eexists. rewrite Hev, Ht, <- app_assoc. split; reflexivity.
Qed.

Lemma only_writes_no_close (evs : list event) :
  forallb is_write evs = true -> existsb is_close evs = false.
Proof.
  induction evs as [|ev evs IH]; simpl; auto.
  intros H. apply andb_prop in H. destruct H as [H1 H2].
  destruct ev; simpl in *; try discriminate; auto.
Qed.

(** The first [Write] of a sink that never rotates, when the creation
    fails: the sink still has no handle. *)
Lemma Write_no_limit_failed (ws : WriteSplitter) (p : list byte) (w : World) (c : syserr) :
  Limit ws <= 0 -> handle ws = None -> hd None (create_faults w) = Some c ->
  let '(_, _, ws', w') := Write ws p w in
  Limit ws' = Limit ws /\ handle ws' = None /\ created w' = created w /\
  exists evs, trace w' = trace w ++ evs /\ existsb is_close evs = false.
Proof.
  intros Hl Hh Hc.
  rewrite (Write_lazy ws p w Hh (switch_rotate_no_limit ws Hl)).
  destruct (create_fails ws w c Hc) as (w1 & -> & Hf & Ht & _).
  destruct (counters_collapse ws None) as (_ & _ & HL & _).
  repeat split; auto.
  - unfold created. now rewrite Hf.
  - eexists. split; [exact Ht|reflexivity].
Qed.

(** In every world, failing creations included, a sink that never rotates
    and starts without a handle closes nothing and creates at most one
    file, which then stays its handle. *)
Lemma run_writes_no_limit (ps : list (list byte)) :
  forall (ws : WriteSplitter) (w : World),
  Limit ws <= 0 -> handle ws = None ->
  let '(ws', w') := run_writes ws ps w in
  (exists evs, trace w' = trace w ++ evs /\ existsb is_close evs = false) /\
  ((handle ws' = None /\ created w' = created w) \/
   (handle ws' = Some (created w) /\ created w' = S (created w))).
Proof.
  induction ps as [|p ps IH]; intros ws w Hl Hh; simpl.
  - split; [exists []; now rewrite app_nil_r|auto].
  - destruct (hd None (create_faults w)) as [c|] eqn:Hc.
    + pose proof (Write_no_limit_failed ws p w c Hl Hh Hc) as H1.
      destruct (Write ws p w) as [[[n e] ws1] w1].
      destruct H1 as (Hl1 & Hh1 & Hc1 & evs1 & Ht1 & Hw1).
      assert (Hl1' : Limit ws1 <= 0) by lia.
      specialize (IH ws1 w1 Hl1' Hh1).
      destruct (run_writes ws1 ps w1) as [ws' w'].
      destruct IH as ((evs2 & Ht2 & Hw2) & Hcase).
      rewrite Hc1 in Hcase. split; [|exact Hcase].
      exists (evs1 ++ evs2). split.
      * rewrite Ht2, Ht1, app_assoc. reflexivity.
      * rewrite existsb_app, Hw1, Hw2. reflexivity.
    + pose proof (Write_no_limit_first ws p w Hl Hh Hc) as H1.
      destruct (Write ws p w) as [[[n e] ws1] w1].
      destruct H1 as (Hl1 & Hh1 & Hc1 & evs1 & Ht1 & Hw1).
      assert (Hl1' : Limit ws1 <= 0) by lia.
      pose proof (run_writes_no_limit_open ps ws1 w1 (created w) Hl1' Hh1) as H2.
      destruct (run_writes ws1 ps w1) as [ws' w'].
      destruct H2 as (_ & Hh2 & Hc2 & evs2 & Ht2 & Hw2).
      split; [|right; split; congruence].
      exists ((EvCreate (create_name ws w) None :: evs1) ++ evs2). split.
      * rewrite Ht2, Ht1, <- app_assoc. reflexivity.
      * rewrite existsb_app. simpl.
        now rewrite (only_writes_no_close evs1 Hw1), (only_writes_no_close evs2 Hw2).
Qed.

(** C4: a sink whose limit is not positive never rotates.  Started without
    a handle, after any non-empty sequence of writes of any data (the first
    creation succeeding) exactly one file has been created, it is still the
    sink's handle, and the system calls performed are that one creation
    followed by writes only: nothing was closed, nothing else was created. *)
Theorem no_limit_one_file
  (ws : WriteSplitter) (w : World) (p : list byte) (ps : list (list byte)) :
  Limit ws <= 0 -> handle ws = None -> hd None (create_faults w) = None ->
  let '(ws', w') := run_writes ws (p :: ps) w in
  created w' = S (created w) /\
  handle ws' = Some (created w) /\
  exists evs,
    events_since w w' = EvCreate (create_name ws w) None :: evs /\
    forallb is_write evs = true.
Proof.
  intros Hl Hh Hc. simpl.
  pose proof (Write_no_limit_first ws p w Hl Hh Hc) as H1.
  destruct (Write ws p w) as [[[n e] ws1] w1].
  destruct H1 as (Hl1 & Hh1 & Hc1 & evs1 & Ht1 & Hw1).
  assert (Hl1' : Limit ws1 <= 0) by lia.
  pose proof (run_writes_no_limit_open ps ws1 w1 (created w) Hl1' Hh1) as H2.
  destruct (run_writes ws1 ps w1) as [ws' w'].
  destruct H2 as (_ & Hh2 & Hc2 & evs2 & Ht2 & Hw2).
  repeat split; try congruence.
  exists (evs1 ++ evs2). split.
  - apply events_since_app. rewrite Ht2, Ht1, <- app_assoc. reflexivity.
  - rewrite forallb_app, Hw1, Hw2. reflexivity.
Qed.

Lemma no_limit_one_file_witness :
  let ws := Demo.line0 in
  let w := Demo.calm in
  Limit ws <= 0 /\ handle ws = None /\ hd None (create_faults w) = None /\
  (let '(ws', w') :=
     run_writes ws [bytes_of "a"; bytes_of "bb"; bytes_of "ccc"; bytes_of "dddd"] w in
   created w' = 1%nat /\ handle ws' = Some 0%nat /\
   exists evs,
     events_since w w' = EvCreate "/tmp/x/log-2020-01-01T00:00:00.000000001Z" None :: evs /\
     forallb is_write evs = true).
Proof.
  cbv zeta.
  assert (Hl : Limit Demo.line0 <= 0) by (apply Z.leb_le; reflexivity).
  pose proof (no_limit_one_file Demo.line0 Demo.calm (bytes_of "a")
                [bytes_of "bb"; bytes_of "ccc"; bytes_of "dddd"] Hl eq_refl eq_refl) as H.
  destruct (run_writes Demo.line0
              [bytes_of "a"; bytes_of "bb"; bytes_of "ccc"; bytes_of "dddd"] Demo.calm)
    as [ws' w'].
  destruct H as (Hc & Hh & Hev).
  repeat split; auto.
Defined.

(** *** Byte mode *)

(** In byte mode the line counter asks for a rotation as well, whatever
    the byte counter is. *)
Lemma switch_rotate_lines (ws : WriteSplitter) :
  0 < Limit ws -> Limit ws <= numLines ws -> switch_rotate ws = true.
Proof.
  intros Hl Hn. unfold switch_rotate.
  assert ((0 <? Limit ws) = true) as -> by now apply Z.ltb_lt.
  assert ((Limit ws <=? numLines ws) = true) as -> by now apply Z.leb_le.
  destruct (true && Bytes ws && (Limit ws <=? numBytes ws)); reflexivity.
Qed.

(** C2: byte mode is meant to rotate on the byte count alone ([Bytes]:
    split by bytes and not lines), but the code does not.  A byte-mode sink
    with limit 2 that has received two writes of no data has written 0
    bytes to its file, yet the third write rotates: it closes the file and
    creates the next one, because the line counter has reached the limit. *)
Theorem ByteSplitter_rotates_on_line_count :
  let '(ws, w) := run_writes (ByteSplitter 2 "/tmp/x" "log-") [[]; []] Demo.calm in
  let '(_, _, _, w') := Write ws [] w in
  Bytes ws = true /\ Limit ws = 2 /\ numBytes ws = 0 /\ numLines ws = 2 /\
  numBytes ws < Limit ws /\
  switch_rotate ws = true /\
  events_since w w' =
    [EvClose 0 None;
     EvCreate "/tmp/x/log-2020-01-01T00:00:00.000000002Z" None;
     EvWrite 1 [] 0 None].
Proof.
  vm_compute. repeat split; reflexivity.
Qed.

(** ** [CheckDir] *)

Lemma CheckDir_cases (dir : string) (w : World) :
  CheckDir dir w =
    match lookup_path (tree w) (filepath.Clean dir) with
    | Directory => Returns None
    | Regular => Returns (Some ErrNotADir)
    | StatFails c => if syserr_eqb c ENOENT then Returns (Some ErrNotADir) else Panics
    end.
Proof.
  unfold CheckDir, os_Stat.
  destruct (lookup_path (tree w) (filepath.Clean dir)) as [| |c]; reflexivity.
Qed.

(** What [CheckDir] does on a directory, on a regular file and on a path
    that does not exist. *)
Lemma CheckDir_examples :
  CheckDir "/var/log/" Demo.tree_world = Returns None /\
  CheckDir "/etc/passwd" Demo.tree_world = Returns (Some ErrNotADir) /\
  CheckDir "/no/such/dir" Demo.tree_world = Returns (Some ErrNotADir).
Proof. repeat split; reflexivity. Qed.

(** C5: [CheckDir] is meant to return [ErrNotADir] when access is denied,
    but the code does not.  When [os.Stat] fails with a permission error,
    [CheckDir] panics on the nil [FileInfo] before [os.IsPermission] is
    consulted. *)
Theorem CheckDir_permission_denied_panics :
  os_Stat Demo.tree_world (filepath.Clean "/root/private/logs") =
    (None, Some (PathError "stat" "/root/private/logs" EACCES)) /\
  os_IsPermission (Some (PathError "stat" "/root/private/logs" EACCES)) = true /\
  CheckDir "/root/private/logs" Demo.tree_world = Panics /\
  CheckDir "/root/private/logs" Demo.tree_world <> Returns (Some ErrNotADir).
Proof.
  repeat split; try reflexivity. vm_compute. discriminate.
Qed.

(** ** The constructors *)

Lemma Clean_nonempty (path : string) : filepath.Clean path <> "".
Proof.
  unfold filepath.Clean.
  destruct (String.eqb _ "") eqn:E.
  - discriminate.
  - now apply String.eqb_neq.
Qed.

Lemma create_collapses (ws : WriteSplitter) (w : World) :
  let '(_, ws', _) := create ws w in
  Dir ws' = (if String.eqb (Dir ws) "." then "" else Dir ws) /\
  Prefix ws' = (if String.eqb (Prefix ws) "." then "" else Prefix ws).
Proof.
  assert (H : forall h, Dir (set_handle (collapse ws) h) =
                          (if String.eqb (Dir ws) "." then "" else Dir ws) /\
                        Prefix (set_handle (collapse ws) h) =
                          (if String.eqb (Prefix ws) "." then "" else Prefix ws)).
  { intros h. unfold collapse.
    destruct (String.eqb (Dir ws) "."); simpl;
      destruct (String.eqb (Prefix ws) "."); simpl; auto. }
  destruct (hd None (create_faults w)) as [c|] eqn:Hc.
  - destruct (create_fails ws w c Hc) as (w1 & -> & _). apply H.
  - destruct (create_succeeds ws w Hc) as (w1 & -> & _). apply H.
Qed.

(** C9 (amended): both constructors store the cleaned directory and the
    cleaned prefix, which are never empty (an empty path or a bare ["."] is
    stored as ["."]), and build a sink with no handle and zero counters:
    no file exists yet.  The bare ["."] is turned into the empty string
    later, by [create], whenever a file is created. *)
Theorem constructors_clean_create_collapses
  (limit : Z) (dir prefix : string) (w : World) :
  let l := LineSplitter limit dir prefix in
  let b := ByteSplitter limit dir prefix in
  (Dir l = filepath.Clean dir /\ Prefix l = filepath.Clean prefix /\
   Dir b = filepath.Clean dir /\ Prefix b = filepath.Clean prefix) /\
  (Dir l <> "" /\ Prefix l <> "" /\ Dir b <> "" /\ Prefix b <> "") /\
  (handle l = None /\ handle b = None /\
   numLines l = 0 /\ numBytes l = 0 /\ numLines b = 0 /\ numBytes b = 0 /\
   Limit l = limit /\ Limit b = limit /\ Bytes l = false /\ Bytes b = true) /\
  (let '(_, l', _) := create l w in
   Dir l' = (if String.eqb (filepath.Clean dir) "." then "" else filepath.Clean dir) /\
   Prefix l' = (if String.eqb (filepath.Clean prefix) "." then "" else filepath.Clean prefix)) /\
  (let '(_, b', _) := create b w in
   Dir b' = (if String.eqb (filepath.Clean dir) "." then "" else filepath.Clean dir) /\
   Prefix b' = (if String.eqb (filepath.Clean prefix) "." then "" else filepath.Clean prefix)).
Proof.
  cbv zeta. split; [|split; [|split; [|split]]].
  - repeat split.
  - repeat split; apply Clean_nonempty.
  - repeat split.
  - apply (create_collapses (LineSplitter limit dir prefix) w).
  - apply (create_collapses (ByteSplitter limit dir prefix) w).
Qed.

(** C9, as stated, fails: built with the current directory, or with an
    empty directory and prefix, a sink stores ["."], not the empty string. *)
Lemma constructors_collapse_counterexample :
  Dir (LineSplitter 3 "." "log-") = "." /\
  Dir (ByteSplitter 3 "./" "log-") = "." /\
  Dir (LineSplitter 3 "" "") = "." /\ Prefix (LineSplitter 3 "" "") = "." /\
  Dir (LineSplitter 3 "." "log-") <> "".
Proof.
  repeat split; try reflexivity. vm_compute. discriminate.
Qed.

(** * Further properties of the package *)

(** ** More facts on the file table *)


Lemma nth_error_update_other (fs : list File) (h i : fd) (g : File) :
  i <> h -> nth_error (update_file fs h g) i = nth_error fs i.
Proof.
  revert h i. induction fs as [|x fs IH]; intros [|h] [|i] Hne; simpl; auto;
    try congruence; try (apply IH; congruence).
Qed.

Lemma update_file_snoc (fs : list File) (g g' : File) :
  update_file (fs ++ [g]) (List.length fs) g' = fs ++ [g'].
Proof.
  induction fs as [|x fs IH]; simpl; auto. now rewrite IH.
Qed.


(** ** The tail of [Write]: a creation followed by the write *)


(** ** A rotation, step by step *)



(** ** [Write] as an [io.Writer] *)

Lemma File_Write_contract (f : option fd) (p : list byte) (w : World) :
  let '(n, e, _) := File_Write f p w in
  0 <= n <= Z.of_nat (List.length p) /\ (e = None -> n = Z.of_nat (List.length p)).
Proof.
  unfold File_Write.
  destruct f as [h|]; [|split; [lia|discriminate]].
  destruct (nth_error (files w) h) as [file|]; [|split; [lia|discriminate]].
  destruct (fclosed file); [split; [lia|discriminate]|].
  destruct (hd None (write_faults w)) as [[k c]|]; simpl.
  - split; [lia|discriminate].
  - split; [lia|reflexivity].
Qed.

(** X7: whatever the state of the sink and of the world, the count that
    [Write] returns lies between 0 and the length of the data, and a nil
    error comes only with the full length: nothing is dropped silently. *)
Theorem Write_nil_error_means_all_written
  (ws : WriteSplitter) (p : list byte) (w : World) :
  let '(n, e, _, _) := Write ws p w in
  0 <= n <= Z.of_nat (List.length p) /\
  (e = None /\ n = Z.of_nat (List.length p) \/ e <> None).
Proof.
  unfold Write.
  destruct (match handle ws with
            | Some _ => (None, ws, w)
            | None => create ws w
            end) as [[e1 ws1] w1].
  destruct (if switch_rotate ws1
            then let '(_, ws0, w0) := Close ws1 w1 in create ws0 w0
            else (e1, ws1, w1)) as [[e2 ws2] w2].
  destruct e2 as [err|].
  - split; [lia|]. right. discriminate.
  - pose proof (File_Write_contract (handle ws2) p w2) as H.
    destruct (File_Write (handle ws2) p w2) as [[n e] w'].
    destruct H as [Hn He]. split; [exact Hn|].
    destruct e as [err|]; [right; discriminate|left; auto].
Qed.

(** ** [CheckDir], result by result *)

Lemma syserr_eqb_eq (a b : syserr) : syserr_eqb a b = true <-> a = b.
Proof.
  destruct a as [|x], b as [|y]; simpl; split; intros H; try discriminate; auto.
  - apply Z.eqb_eq in H. now subst.
  - inversion H. apply Z.eqb_refl.
Qed.

(** X11: [CheckDir] returns nil exactly when the cleaned path is a
    directory, and [ErrNotADir] exactly when it is a file of another kind
    or does not exist; it panics exactly when [os.Stat] fails for another
    reason; it never returns the error of [os.Stat] itself. *)
Theorem CheckDir_results (dir : string) (w : World) :
  (CheckDir dir w = Returns None <->
   lookup_path (tree w) (filepath.Clean dir) = Directory) /\
  (CheckDir dir w = Returns (Some ErrNotADir) <->
   lookup_path (tree w) (filepath.Clean dir) = Regular \/
   lookup_path (tree w) (filepath.Clean dir) = StatFails ENOENT) /\
  (CheckDir dir w = Panics <->
   exists c, lookup_path (tree w) (filepath.Clean dir) = StatFails c /\ c <> ENOENT) /\
  (forall e, CheckDir dir w = Returns (Some e) -> e = ErrNotADir).
Proof.
  rewrite CheckDir_cases.
  destruct (lookup_path (tree w) (filepath.Clean dir)) as [| |c].
  - repeat split; try discriminate; auto.
    + intros [H|H]; discriminate.
    + intros (c & H & _). discriminate.
  - repeat split; try discriminate; auto.
    + intros (c & H & _). discriminate.
    + intros e H. now inversion H.
  - destruct (syserr_eqb c ENOENT) eqn:E.
    + apply syserr_eqb_eq in E. subst c. repeat split; try discriminate; auto.
      * intros (c & H & Hne). inversion H. congruence.
      * intros e H. now inversion H.
    + assert (Hne : c <> ENOENT).
      { intros ->. now rewrite (proj2 (syserr_eqb_eq ENOENT ENOENT) eq_refl) in E. }
      repeat split; try discriminate; eauto.
      intros [H|H]; [discriminate|]. inversion H. contradiction.
Qed.

(** ** The system calls, case by case *)

Lemma File_Close_closed (h : fd) (w : World) (f : File) :
  nth_error (files w) h = Some f -> fclosed f = true ->
  File_Close h w =
    (Some (PathError "close" (fname f) ErrClosed),
     record w (EvClose h (Some (PathError "close" (fname f) ErrClosed)))).
Proof.
  intros Hf Ho. unfold File_Close. rewrite Hf, Ho. reflexivity.
Qed.

Lemma File_Close_invalid (h : fd) (w : World) :
  nth_error (files w) h = None -> File_Close h w = (Some ErrInvalid, w).
Proof.
  intros Hf. unfold File_Close. now rewrite Hf.
Qed.

Lemma File_Write_invalid (h : fd) (p : list byte) (w : World) :
  nth_error (files w) h = None -> File_Write (Some h) p w = (0, Some ErrInvalid, w).
Proof.
  intros Hf. unfold File_Write. now rewrite Hf.
Qed.

Lemma write_count_le (w : World) (p : list byte) :
  (write_count w p <= List.length p)%nat.
Proof.
  unfold write_count. destruct (hd None (write_faults w)) as [[k c]|]; lia.
Qed.

Lemma Write_lazy_tail (ws : WriteSplitter) (p : list byte) (w : World) :
  handle ws = None -> switch_rotate ws = false ->
  Write ws p w = write_after_create ws p w.
Proof. exact (Write_lazy ws p w). Qed.

Lemma Write_rotate_tail (ws : WriteSplitter) (p : list byte) (w : World) (h : fd) :
  handle ws = Some h -> switch_rotate ws = true ->
  Write ws p w = let '(_, ws0, w0) := Close ws w in write_after_create ws0 p w0.
Proof. exact (Write_rotate ws p w h). Qed.

(** The two outcomes of [write_after_create]. *)
Lemma write_after_create_fails (ws0 : WriteSplitter) (p : list byte) (w0 : World) (c : syserr) :
  hd None (create_faults w0) = Some c ->
  exists w1,
    write_after_create ws0 p w0 =
      (0, Some (PathError "open" (create_name ws0 w0) c), set_handle (collapse ws0) None, w1) /\
    files w1 = files w0 /\
    trace w1 = trace w0 ++
      [EvCreate (create_name ws0 w0) (Some (PathError "open" (create_name ws0 w0) c))] /\
    create_faults w1 = tl (create_faults w0).
Proof.
  intros Hc. unfold write_after_create.
  destruct (create_fails ws0 w0 c Hc) as (w1 & -> & Hf & Ht & Hcf & _).
  exists w1. auto.
Qed.

Lemma write_after_create_succeeds (ws0 : WriteSplitter) (p : list byte) (w0 : World) :
  hd None (create_faults w0) = None ->
  exists w',
    write_after_create ws0 p w0 =
      (Z.of_nat (write_count w0 p), write_result w0 (create_name ws0 w0),
       set_counts (set_handle (collapse ws0) (Some (created w0)))
                  (GoInt.add (numLines ws0) 1)
                  (GoInt.add (numBytes ws0) (Z.of_nat (write_count w0 p))), w') /\
    files w' = files w0 ++ [mkFile (create_name ws0 w0) (firstn (write_count w0 p) p) false] /\
    trace w' = trace w0 ++
      [EvCreate (create_name ws0 w0) None;
       EvWrite (created w0) p (Z.of_nat (write_count w0 p))
               (write_result w0 (create_name ws0 w0))] /\
    create_faults w' = tl (create_faults w0).
Proof.
  intros Hc. unfold write_after_create.
  destruct (create_succeeds ws0 w0 Hc) as (w1 & -> & Hf & Ht & Hcf & Hwf & _).
  assert (Hnew : nth_error (files w1) (created w0) = Some (mkFile (create_name ws0 w0) [] false)).
  { rewrite Hf. apply nth_error_snoc_new. }
  cbv beta iota.
  change (handle (set_handle (collapse ws0) (Some (created w0)))) with (Some (created w0)).
  rewrite (File_Write_open (created w0) p w1 _ Hnew eq_refl).
  assert (Hk : write_count w1 p = write_count w0 p).
  { unfold write_count. now rewrite Hwf. }
  assert (He : write_result w1 (create_name ws0 w0) = write_result w0 (create_name ws0 w0)).
  { unfold write_result. now rewrite Hwf. }
  rewrite Hk. simpl fname. rewrite He. simpl fdata.
  destruct (counters_collapse ws0 (Some (created w0))) as (-> & -> & _).
  eexists. split; [reflexivity|]. simpl. repeat split; auto.
  - rewrite Hf. apply update_file_snoc.
  - rewrite Ht, <- app_assoc. reflexivity.
Qed.

(** ** Sinks reached from a constructor *)

Lemma run_calls_consistent (cs : list call) :
  forall (ws : WriteSplitter) (w : World),
  consistent ws -> let '(ws', _) := run_calls ws cs w in consistent ws'.
Proof.
  induction cs as [|[p|] cs IH]; intros ws w Hc; simpl; auto.
  - pose proof (Write_consistent ws p w Hc) as H.
    destruct (Write ws p w) as [[[n e] ws1] w1]. now apply IH.
  - pose proof (Close_consistent ws w Hc) as H.
    destruct (Close ws w) as [[e ws1] w1]. now apply IH.
Qed.

(** X12: whatever calls are made, in whatever world, on a sink built by a
    constructor, the sink never holds counts without a handle: when its
    handle is nil, both counters are zero. *)
Theorem constructed_sink_counts_only_with_handle
  (limit : Z) (dir prefix : string) (cs : list call) (w : World) :
  (let '(ws', _) := run_calls (LineSplitter limit dir prefix) cs w in
   handle ws' = None -> numLines ws' = 0 /\ numBytes ws' = 0) /\
  (let '(ws', _) := run_calls (ByteSplitter limit dir prefix) cs w in
   handle ws' = None -> numLines ws' = 0 /\ numBytes ws' = 0).
Proof.
  destruct (constructors_consistent limit dir prefix) as [Hl Hb].
  split.
  - apply (run_calls_consistent cs _ w Hl).
  - apply (run_calls_consistent cs _ w Hb).
Qed.

(** ** One open file at a time *)

Lemma Close_closes_all (ws : WriteSplitter) (w : World) :
  one_open ws w ->
  let '(_, ws', w') := Close ws w in handle ws' = handle ws /\ all_closed w'.
Proof.
  intros Hone. unfold Close. destruct (handle ws) as [h|] eqn:Hh.
  - destruct (nth_error (files w) h) as [f|] eqn:Hf.
    + destruct (fclosed f) eqn:Ho.
      * rewrite (File_Close_closed h w f Hf Ho). split; [exact Hh|].
        intros i g Hi. simpl in Hi. destruct (fclosed g) eqn:Hg; auto.
        specialize (Hone i g Hi Hg). congruence.
      * rewrite (File_Close_open h w f Hf Ho). split; [exact Hh|].
        intros i g Hi. simpl in Hi. destruct (Nat.eq_dec i h) as [->|Hne].
        -- rewrite (nth_error_update_same _ _ _ _ Hf) in Hi. now inversion Hi.
        -- rewrite (nth_error_update_other _ _ _ _ Hne) in Hi.
           destruct (fclosed g) eqn:Hg; auto.
           specialize (Hone i g Hi Hg). congruence.
    + rewrite (File_Close_invalid h w Hf). split; [exact Hh|].
      intros i g Hi. destruct (fclosed g) eqn:Hg; auto.
      specialize (Hone i g Hi Hg). congruence.
  - split; [exact Hh|].
    intros i g Hi. destruct (fclosed g) eqn:Hg; auto.
    specialize (Hone i g Hi Hg). congruence.
Qed.

Lemma write_after_create_one_open (ws0 : WriteSplitter) (p : list byte) (w0 : World) :
  all_closed w0 ->
  let '(_, _, ws', w') := write_after_create ws0 p w0 in one_open ws' w'.
Proof.
  intros Hall. destruct (hd None (create_faults w0)) as [c|] eqn:Hc.
  - destruct (write_after_create_fails ws0 p w0 c Hc) as (w1 & -> & Hf & _).
    intros i g Hi Hg. rewrite Hf in Hi. specialize (Hall i g Hi). congruence.
  - destruct (write_after_create_succeeds ws0 p w0 Hc) as (w1 & -> & Hf & _).
    intros i g Hi Hg. rewrite Hf in Hi. simpl.
    destruct (Nat.lt_ge_cases i (List.length (files w0))) as [Hlt|Hge].
    + rewrite nth_error_app1 in Hi by exact Hlt.
      specialize (Hall i g Hi). congruence.
    + rewrite nth_error_app2 in Hi by exact Hge.
      destruct (i - List.length (files w0))%nat as [|k] eqn:Hk.
      * unfold created. f_equal. lia.
      * simpl in Hi. destruct k; discriminate.
Qed.

Lemma File_Write_one_open (ws ws' : WriteSplitter) (h : fd) (p : list byte) (w : World) :
  handle ws = Some h -> handle ws' = Some h -> one_open ws w ->
  let '(_, _, w') := File_Write (Some h) p w in one_open ws' w'.
Proof.
  intros Hh Hh' Hone.
  assert (Hsame : forall w', files w' = files w -> one_open ws' w').
  { intros w' Hf i g Hi Hg. rewrite Hf in Hi. rewrite Hh', <- Hh. eauto. }
  destruct (nth_error (files w) h) as [f|] eqn:Hf.
  - destruct (fclosed f) eqn:Ho.
    + rewrite (File_Write_closed h p w f Hf Ho). now apply Hsame.
    + rewrite (File_Write_open h p w f Hf Ho).
      intros i g Hi Hg. simpl in Hi. destruct (Nat.eq_dec i h) as [->|Hne]; auto.
      rewrite (nth_error_update_other _ _ _ _ Hne) in Hi.
      rewrite Hh', <- Hh. eauto.
  - rewrite (File_Write_invalid h p w Hf). now apply Hsame.
Qed.

Lemma Write_one_open (ws : WriteSplitter) (p : list byte) (w : World) :
  consistent ws -> one_open ws w ->
  let '(_, _, ws', w') := Write ws p w in one_open ws' w'.
Proof.
  intros Hcons Hone. destruct (handle ws) as [h|] eqn:Hh.
  - destruct (switch_rotate ws) eqn:Hs.
    + rewrite (Write_rotate_tail ws p w h Hh Hs).
      pose proof (Close_closes_all ws w Hone) as HC.
      destruct (Close ws w) as [[e0 ws0] w0]. destruct HC as [_ Hall].
      now apply write_after_create_one_open.
    + rewrite (Write_plain ws p w h Hh Hs).
      pose proof (File_Write_one_open ws
                    (set_counts ws (GoInt.add (numLines ws) 1) (numBytes ws)) h p w
                    Hh Hh Hone) as HF.
      destruct (File_Write (Some h) p w) as [[n e] w']. exact HF.
  - destruct (Hcons Hh) as [Hl Hb].
    rewrite (Write_lazy_tail ws p w Hh (switch_rotate_zero ws Hl Hb)).
    apply write_after_create_one_open.
    intros i g Hi. destruct (fclosed g) eqn:Hg; auto.
    specialize (Hone i g Hi Hg). congruence.
Qed.

(** X4: [Write] and [Close] keep at most one file open.  If the only file
    that may be open is the one of the handle, this is still so after any
    sequence of calls, in whatever world: two open files are the same
    file. *)
Theorem one_file_open_at_a_time
  (ws : WriteSplitter) (cs : list call) (w : World) :
  consistent ws -> one_open ws w ->
  let '(ws', w') := run_calls ws cs w in
  one_open ws' w' /\
  (forall (i j : fd) (f g : File),
     nth_error (files w') i = Some f -> fclosed f = false ->
     nth_error (files w') j = Some g -> fclosed g = false -> i = j).
Proof.
  revert ws w. induction cs as [|[p|] cs IH]; intros ws w Hcons Hone; simpl.
  - split; [exact Hone|].
    intros i j f g Hi Hf Hj Hg.
    pose proof (Hone i f Hi Hf). pose proof (Hone j g Hj Hg). congruence.
  - pose proof (Write_consistent ws p w Hcons) as H1.
    pose proof (Write_one_open ws p w Hcons Hone) as H2.
    destruct (Write ws p w) as [[[n e] ws1] w1]. now apply IH.
  - pose proof (Close_consistent ws w Hcons) as H1.
    pose proof (Close_closes_all ws w Hone) as H2.
    destruct (Close ws w) as [[e ws1] w1]. destruct H2 as [_ Hall].
    apply IH; auto.
    intros i g Hi Hg. specialize (Hall i g Hi). congruence.
Qed.

Lemma one_file_open_at_a_time_witness :
  let ws := Demo.line3 in
  let w := Demo.calm in
  let cs := [CallWrite (bytes_of "a"); CallWrite (bytes_of "b"); CallWrite (bytes_of "c");
             CallWrite (bytes_of "d"); CallClose; CallWrite (bytes_of "e")] in
  consistent ws /\ one_open ws w /\
  (let '(ws', w') := run_calls ws cs w in
   created w' = 2%nat /\ one_open ws' w' /\
   (forall (i j : fd) (f g : File),
      nth_error (files w') i = Some f -> fclosed f = false ->
      nth_error (files w') j = Some g -> fclosed g = false -> i = j)).
Proof.
  cbv zeta.
  assert (Hc : consistent Demo.line3) by (intros _; split; reflexivity).
  assert (Ho : one_open Demo.line3 Demo.calm).
  { intros i f Hi. destruct i; discriminate Hi. }
  pose proof (one_file_open_at_a_time Demo.line3
                [CallWrite (bytes_of "a"); CallWrite (bytes_of "b"); CallWrite (bytes_of "c");
                 CallWrite (bytes_of "d"); CallClose; CallWrite (bytes_of "e")]
                Demo.calm Hc Ho) as H.
  split; [exact Hc|]. split; [exact Ho|].
  set (r := run_calls _ _ _) in *. vm_compute in r. subst r. cbv beta iota in H |- *.
  split; [reflexivity|exact H].
Defined.

(** ** The byte counter and the size of the file *)

Lemma add_wrap (a b : Z) : GoInt.add (GoInt.wrap a) b = GoInt.wrap (a + b).
Proof.
  unfold GoInt.add, GoInt.wrap.
  replace ((a + 2 ^ 63) mod 2 ^ 64 - 2 ^ 63 + b + 2 ^ 63)
    with ((a + 2 ^ 63) mod 2 ^ 64 + b) by ring.
  rewrite Z.add_mod_idemp_l by (vm_compute; discriminate).
  f_equal. f_equal. ring.
Qed.

Lemma Close_counts_bytes (ws : WriteSplitter) (w : World) :
  let '(_, ws', w') := Close ws w in counts_bytes ws' w'.
Proof.
  unfold Close. destruct (handle ws) as [h|] eqn:Hh.
  - destruct (nth_error (files w) h) as [f|] eqn:Hf.
    + destruct (fclosed f) eqn:Ho.
      * rewrite (File_Close_closed h w f Hf Ho).
        intros h' g Hh' Hg Hopen. simpl in Hh', Hg. congruence.
      * rewrite (File_Close_open h w f Hf Ho).
        intros h' g Hh' Hg Hopen. simpl in Hh', Hg.
        assert (h' = h) by congruence. subst h'.
        rewrite (nth_error_update_same _ _ _ _ Hf) in Hg.
        inversion Hg; subst. discriminate Hopen.
    + rewrite (File_Close_invalid h w Hf).
      intros h' g Hh' Hg Hopen. simpl in Hh'. congruence.
  - intros h' g Hh'. congruence.
Qed.

Lemma write_after_create_counts_bytes (ws0 : WriteSplitter) (p : list byte) (w0 : World) :
  numBytes ws0 = 0 ->
  let '(_, _, ws', w') := write_after_create ws0 p w0 in counts_bytes ws' w'.
Proof.
  intros Hb. destruct (hd None (create_faults w0)) as [c|] eqn:Hc.
  - destruct (write_after_create_fails ws0 p w0 c Hc) as (w1 & -> & _).
    intros h g Hh. discriminate Hh.
  - destruct (write_after_create_succeeds ws0 p w0 Hc) as (w1 & -> & Hf & _).
    intros h g Hh Hg _. simpl in Hh. inversion Hh; subst h.
    rewrite Hf in Hg. unfold created in Hg. rewrite nth_error_snoc_new in Hg.
    inversion Hg; subst g. simpl.
    rewrite Hb, length_firstn, Nat.min_l by apply write_count_le.
    reflexivity.
Qed.

Lemma Write_counts_bytes (ws : WriteSplitter) (p : list byte) (w : World) :
  consistent ws -> counts_bytes ws w ->
  let '(_, _, ws', w') := Write ws p w in counts_bytes ws' w'.
Proof.
  intros Hcons Hcb. destruct (handle ws) as [h|] eqn:Hh.
  - destruct (switch_rotate ws) eqn:Hs.
    + rewrite (Write_rotate_tail ws p w h Hh Hs).
      pose proof (Close_frame ws w) as HC.
      destruct (Close ws w) as [[e0 ws0] w0].
      destruct HC as (_ & Hz & _).
      destruct Hz as [_ Hb0]; [congruence|].
      now apply write_after_create_counts_bytes.
    + rewrite (Write_plain ws p w h Hh Hs).
      destruct (nth_error (files w) h) as [f|] eqn:Hf.
      * destruct (fclosed f) eqn:Ho.
        -- rewrite (File_Write_closed h p w f Hf Ho).
           intros h' g Hh' Hg Hopen. simpl in Hh', Hg. congruence.
        -- rewrite (File_Write_open h p w f Hf Ho).
           intros h' g Hh' Hg _. simpl in Hh', Hg.
           assert (h' = h) by congruence. subst h'.
           rewrite (nth_error_update_same _ _ _ _ Hf) in Hg.
           inversion Hg; subst g. simpl.
           rewrite (Hcb h f Hh Hf Ho), add_wrap, length_app, length_firstn,
             Nat.min_l by apply write_count_le.
           f_equal. lia.
      * rewrite (File_Write_invalid h p w Hf).
        intros h' g Hh' Hg. simpl in Hh'. congruence.
  - destruct (Hcons Hh) as [Hl Hb].
    rewrite (Write_lazy_tail ws p w Hh (switch_rotate_zero ws Hl Hb)).
    now apply write_after_create_counts_bytes.
Qed.

(** X5: the byte counter follows the file.  If the byte counter of a sink
    is the size (as a Go [int]) of the open file of its handle, this is
    still so after any sequence of calls, in whatever world, partial and
    failed writes included; while the size fits an [int], the counter is
    the size. *)
Theorem byte_counter_is_file_size
  (ws : WriteSplitter) (cs : list call) (w : World) :
  consistent ws -> counts_bytes ws w ->
  let '(ws', w') := run_calls ws cs w in
  forall (h : fd) (f : File),
    handle ws' = Some h -> nth_error (files w') h = Some f -> fclosed f = false ->
    numBytes ws' = GoInt.wrap (Z.of_nat (List.length (fdata f))) /\
    (Z.of_nat (List.length (fdata f)) <= GoInt.max_int ->
     numBytes ws' = Z.of_nat (List.length (fdata f))).
Proof.
  revert ws w. induction cs as [|[p|] cs IH]; intros ws w Hcons Hcb; simpl.
  - intros h f Hh Hf Ho. split; [exact (Hcb h f Hh Hf Ho)|].
    intros Hr. rewrite (Hcb h f Hh Hf Ho). apply wrap_in_range.
    unfold GoInt.in_range, GoInt.min_int. split; [|exact Hr].
    assert (- 2 ^ 63 <= 0) by (vm_compute; discriminate). lia.
  - pose proof (Write_consistent ws p w Hcons) as H1.
    pose proof (Write_counts_bytes ws p w Hcons Hcb) as H2.
    destruct (Write ws p w) as [[[n e] ws1] w1]. now apply IH.
  - pose proof (Close_consistent ws w Hcons) as H1.
    pose proof (Close_counts_bytes ws w) as H2.
    destruct (Close ws w) as [[e ws1] w1]. now apply IH.
Qed.

Lemma byte_counter_is_file_size_witness :
  let ws := Demo.byte10 in
  let w := Demo.partial_write in
  let cs := [CallWrite (bytes_of "abc"); CallWrite (bytes_of "de")] in
  consistent ws /\ counts_bytes ws w /\
  (let '(ws', w') := run_calls ws cs w in
   handle ws' = Some 0%nat /\
   nth_error (files w') 0 =
     Some (mkFile "/tmp/x/log-2020-01-01T00:00:00.000000001Z" (bytes_of "ade") false) /\
   numBytes ws' = 3).
Proof.
  cbv zeta.
  assert (Hc : consistent Demo.byte10) by (intros _; split; reflexivity).
  assert (Hb : counts_bytes Demo.byte10 Demo.partial_write).
  { intros h f Hh. discriminate Hh. }
  pose proof (byte_counter_is_file_size Demo.byte10
                [CallWrite (bytes_of "abc"); CallWrite (bytes_of "de")]
                Demo.partial_write Hc Hb) as H.
  split; [exact Hc|]. split; [exact Hb|].
  set (r := run_calls _ _ _) in *. vm_compute in r. subst r. cbv beta iota in H |- *.
  split; [reflexivity|]. split; [reflexivity|].
  apply (H 0%nat _ eq_refl eq_refl eq_refl). vm_compute. discriminate.
Defined.

(** ** No byte is lost *)







(** ** Line mode *)

Lemma switch_rotate_line_mode (ws : WriteSplitter) :
  Bytes ws = false ->
  switch_rotate ws = (0 <? Limit ws) && (Limit ws <=? numLines ws).
Proof.
  intros Hb. unfold switch_rotate. rewrite Hb, andb_false_r. simpl.
  destruct ((0 <? Limit ws) && (Limit ws <=? numLines ws)); reflexivity.
Qed.

Lemma File_Write_valid (h : fd) (p : list byte) (w : World) :
  (h < created w)%nat ->
  let '(n, e, w') := File_Write (Some h) p w in
  trace w' = trace w ++ [EvWrite h p n e] /\ created w' = created w /\
  create_faults w' = create_faults w.
Proof.
  intros Hv. unfold created in *.
  destruct (nth_error (files w) h) as [f|] eqn:Hf.
  - destruct (fclosed f) eqn:Ho.
    + rewrite (File_Write_closed h p w f Hf Ho). auto.
    + rewrite (File_Write_open h p w f Hf Ho). simpl. repeat split.
      apply length_update_file.
  - apply nth_error_None in Hf. lia.
Qed.

(** A [Write] that rotates on a handle of the file table starts by closing
    the file of the handle, whatever its state, and creating a file. *)
Lemma Write_rotate_starts (ws : WriteSplitter) (q : list byte) (w : World) (h : fd) :
  handle ws = Some h -> (h < created w)%nat -> switch_rotate ws = true ->
  let '(_, _, _, w') := Write ws q w in
  exists r name c rest, events_since w w' = EvClose h r :: EvCreate name c :: rest.
Proof.
  intros Hh Hv Hs. rewrite (Write_rotate_tail ws q w h Hh Hs).
  unfold Close. rewrite Hh.
  assert (H0 : exists r w0, File_Close h w = (r, w0) /\ trace w0 = trace w ++ [EvClose h r]).
  { unfold created in Hv. destruct (nth_error (files w) h) as [f|] eqn:Hf.
    - destruct (fclosed f) eqn:Ho.
      + rewrite (File_Close_closed h w f Hf Ho). eauto.
      + rewrite (File_Close_open h w f Hf Ho). eauto.
    - apply nth_error_None in Hf. lia. }
  destruct H0 as (r & w0 & -> & Ht0).
  destruct (hd None (create_faults w0)) as [c|] eqn:Hc.
  - destruct (write_after_create_fails (set_counts ws 0 0) q w0 c Hc) as (w1 & -> & _ & Ht & _).
    do 4 eexists. apply events_since_app. rewrite Ht, Ht0, <- app_assoc. reflexivity.
  - destruct (write_after_create_succeeds (set_counts ws 0 0) q w0 Hc) as (w1 & -> & _ & Ht & _).
    do 4 eexists. apply events_since_app. rewrite Ht, Ht0, <- app_assoc. reflexivity.
Qed.

(** One more line in the current file. *)
Lemma Write_line_mode_below_limit (ws : WriteSplitter) (p : list byte) (w : World) (h : fd) :
  Bytes ws = false -> handle ws = Some h -> (h < created w)%nat ->
  0 <= numLines ws < Limit ws -> Limit ws <= GoInt.max_int ->
  let '(n, e, ws', w') := Write ws p w in
  Bytes ws' = false /\ Limit ws' = Limit ws /\ handle ws' = Some h /\
  numLines ws' = numLines ws + 1 /\
  created w' = created w /\ create_faults w' = create_faults w /\
  trace w' = trace w ++ [EvWrite h p n e].
Proof.
  intros Hb Hh Hv Hn Hmax.
  assert (Hs : switch_rotate ws = false).
  { rewrite (switch_rotate_line_mode ws Hb).
    assert ((Limit ws <=? numLines ws) = false) as -> by (apply Z.leb_gt; lia).
    apply andb_false_r. }
  rewrite (Write_plain ws p w h Hh Hs).
  pose proof (File_Write_valid h p w Hv) as HF.
  destruct (File_Write (Some h) p w) as [[n e] w'].
  destruct HF as (Ht & Hc & Hcf). simpl. repeat split; auto.
  apply add_in_range. unfold GoInt.in_range, GoInt.min_int, GoInt.max_int in *.
  assert (- 2 ^ 63 <= 0) by (vm_compute; discriminate). lia.
Qed.

Lemma run_writes_line_mode_fills (ps : list (list byte)) :
  forall (ws : WriteSplitter) (w : World) (h : fd),
  Bytes ws = false -> handle ws = Some h -> (h < created w)%nat ->
  0 <= numLines ws -> numLines ws + Z.of_nat (List.length ps) <= Limit ws ->
  Limit ws <= GoInt.max_int ->
  let '(ws', w') := run_writes ws ps w in
  Bytes ws' = false /\ Limit ws' = Limit ws /\ handle ws' = Some h /\
  numLines ws' = numLines ws + Z.of_nat (List.length ps) /\
  created w' = created w /\ create_faults w' = create_faults w /\
  exists evs, trace w' = trace w ++ evs /\
              Forall2 (fun ev p => exists n e, ev = EvWrite h p n e) evs ps.
Proof.
  induction ps as [|p ps IH]; intros ws w h Hb Hh Hv H0 Hn Hmax.
  - simpl. repeat split; auto; try lia. exists []. rewrite app_nil_r. auto.
  - cbn [run_writes]. cbn [List.length] in *.
    assert (Hlt : 0 <= numLines ws < Limit ws) by lia.
    pose proof (Write_line_mode_below_limit ws p w h Hb Hh Hv Hlt Hmax) as H1.
    destruct (Write ws p w) as [[[n e] ws1] w1].
    destruct H1 as (Hb1 & Hl1 & Hh1 & Hn1 & Hc1 & Hcf1 & Ht1).
    assert (Hv1 : (h < created w1)%nat) by lia.
    assert (H01 : 0 <= numLines ws1) by lia.
    assert (Hn1' : numLines ws1 + Z.of_nat (List.length ps) <= Limit ws1) by lia.
    assert (Hmax1 : Limit ws1 <= GoInt.max_int) by lia.
    specialize (IH ws1 w1 h Hb1 Hh1 Hv1 H01 Hn1' Hmax1).
    destruct (run_writes ws1 ps w1) as [ws' w'].
    destruct IH as (Hb2 & Hl2 & Hh2 & Hn2 & Hc2 & Hcf2 & evs & Ht2 & Hall).
    repeat split; try congruence; try lia.
    exists (EvWrite h p n e :: evs). split.
    + rewrite Ht2, Ht1, <- app_assoc. reflexivity.
    + constructor; eauto.
Qed.

(** X1: line mode fills a file with exactly [Limit] writes.  On a
    line-mode sink with a handle, as long as the line counter stays within
    the limit, every [Write] of a sequence goes to that same file, whatever
    the data and whether or not the write succeeds, and counts for one
    line; once the counter has reached the limit, the next [Write] closes
    the file and creates another. *)
Theorem line_mode_fills_the_file
  (ws : WriteSplitter) (w : World) (h : fd) (ps : list (list byte)) (q : list byte) :
  Bytes ws = false -> handle ws = Some h -> (h < created w)%nat ->
  0 <= numLines ws -> numLines ws + Z.of_nat (List.length ps) <= Limit ws ->
  Limit ws <= GoInt.max_int ->
  let '(ws1, w1) := run_writes ws ps w in
  let '(_, _, _, w2) := Write ws1 q w1 in
  handle ws1 = Some h /\ created w1 = created w /\
  numLines ws1 = numLines ws + Z.of_nat (List.length ps) /\
  Forall2 (fun ev p => exists n e, ev = EvWrite h p n e) (events_since w w1) ps /\
  (0 < Limit ws -> numLines ws1 = Limit ws ->
   exists r name c rest, events_since w1 w2 = EvClose h r :: EvCreate name c :: rest) /\
  (numLines ws1 < Limit ws ->
   exists n e, events_since w1 w2 = [EvWrite h q n e]).
Proof.
  intros Hb Hh Hv H0 Hn Hmax.
  pose proof (run_writes_line_mode_fills ps ws w h Hb Hh Hv H0 Hn Hmax) as H1.
  destruct (run_writes ws ps w) as [ws1 w1].
  destruct H1 as (Hb1 & Hl1 & Hh1 & Hn1 & Hc1 & _ & evs & Ht1 & Hall).
  assert (Hv1 : (h < created w1)%nat) by lia.
  pose proof (Write_rotate_starts ws1 q w1 h Hh1 Hv1) as Hrot.
  pose proof (Write_line_mode_below_limit ws1 q w1 h Hb1 Hh1 Hv1) as Hplain.
  destruct (Write ws1 q w1) as [[[n e] ws2] w2].
  repeat split; auto.
  - now rewrite (events_since_app w w1 evs Ht1).
  - intros Hpos Hfull. apply Hrot. apply switch_rotate_lines; lia.
  - intros Hlt. destruct Hplain as (_ & _ & _ & _ & _ & _ & Ht2); [lia|lia|].
    exists n, e. now apply events_since_app.
Qed.

Lemma line_mode_fills_the_file_witness :
  let ws := fst Demo.line3_open in
  let w := snd Demo.line3_open in
  let ps := [bytes_of "b"; bytes_of "c"] in
  Bytes ws = false /\ handle ws = Some 0%nat /\ (0 < created w)%nat /\
  0 <= numLines ws /\ numLines ws + Z.of_nat (List.length ps) <= Limit ws /\
  Limit ws <= GoInt.max_int /\
  (let '(ws1, w1) := run_writes ws ps w in
   let '(_, _, _, w2) := Write ws1 (bytes_of "d") w1 in
   handle ws1 = Some 0%nat /\ numLines ws1 = 3 /\
   Forall2 (fun ev p => exists n e, ev = EvWrite 0 p n e) (events_since w w1) ps /\
   exists r name c rest, events_since w1 w2 = EvClose 0 r :: EvCreate name c :: rest).
Proof.
  cbv zeta.
  assert (Hv : (0 < created (snd Demo.line3_open))%nat) by (vm_compute; lia).
  assert (H0 : 0 <= numLines (fst Demo.line3_open)) by (vm_compute; discriminate).
  assert (Hn : numLines (fst Demo.line3_open)
               + Z.of_nat (List.length [bytes_of "b"; bytes_of "c"])
               <= Limit (fst Demo.line3_open)) by (vm_compute; discriminate).
  assert (Hmax : Limit (fst Demo.line3_open) <= GoInt.max_int) by (vm_compute; discriminate).
  pose proof (line_mode_fills_the_file (fst Demo.line3_open) (snd Demo.line3_open) 0%nat
                [bytes_of "b"; bytes_of "c"] (bytes_of "d")
                eq_refl eq_refl Hv H0 Hn Hmax) as H.
  destruct (run_writes (fst Demo.line3_open) [bytes_of "b"; bytes_of "c"]
              (snd Demo.line3_open)) as [ws1 w1].
  destruct (Write ws1 (bytes_of "d") w1) as [[[n e] ws2] w2].
  destruct H as (Hh & _ & Hl & Hall & Hrot & _).
  repeat split; auto.
  apply Hrot; [reflexivity|exact Hl].
Defined.

Lemma no_create_faults_hd (w : World) :
  no_create_faults w -> hd None (create_faults w) = None.
Proof.
  unfold no_create_faults. destruct (create_faults w) as [|o l]; simpl; auto.
  intros H. now inversion H.
Qed.

Lemma no_create_faults_tl (w w' : World) :
  no_create_faults w -> create_faults w' = tl (create_faults w) -> no_create_faults w'.
Proof.
  unfold no_create_faults. intros H ->.
  destruct (create_faults w) as [|o l]; simpl; auto. now inversion H.
Qed.

(** The end of a [Write] that creates a file, in line mode, when no
    creation fails. *)
Lemma write_after_create_line_mode (ws0 : WriteSplitter) (p : list byte) (w0 : World) :
  Bytes ws0 = false -> numLines ws0 = 0 -> no_create_faults w0 ->
  let '(_, _, ws', w') := write_after_create ws0 p w0 in
  Bytes ws' = false /\ Limit ws' = Limit ws0 /\ handle ws' = Some (created w0) /\
  numLines ws' = 1 /\ created w' = S (created w0) /\ no_create_faults w'.
Proof.
  intros Hb Hl Hnc.
  destruct (write_after_create_succeeds ws0 p w0 (no_create_faults_hd w0 Hnc))
    as (w' & -> & Hf & _ & Hcf).
  destruct (counters_collapse ws0 (Some (created w0))) as (_ & _ & HL & HB).
  rewrite Hl. cbn [Bytes Limit handle numLines set_counts].
  split; [congruence|]. split; [congruence|]. split; [reflexivity|].
  split; [reflexivity|]. split.
  - unfold created. rewrite Hf, length_app. simpl. lia.
  - eapply no_create_faults_tl; eauto.
Qed.

Lemma Write_line_mode_at_limit (ws : WriteSplitter) (p : list byte) (w : World) (h : fd) :
  Bytes ws = false -> handle ws = Some h ->
  0 < Limit ws -> numLines ws = Limit ws -> no_create_faults w ->
  let '(_, _, ws', w') := Write ws p w in
  Bytes ws' = false /\ Limit ws' = Limit ws /\ handle ws' = Some (created w) /\
  numLines ws' = 1 /\ created w' = S (created w) /\ no_create_faults w'.
Proof.
  intros Hb Hh Hpos Hfull Hnc.
  assert (Hs : switch_rotate ws = true) by (apply switch_rotate_lines; lia).
  rewrite (Write_rotate_tail ws p w h Hh Hs).
  pose proof (Close_frame ws w) as HC.
  destruct (Close ws w) as [[e0 ws0] w0].
  destruct HC as ((_ & HL & HB & _) & Hz & _ & _ & Hcr & _ & Hcf & _).
  destruct Hz as [Hl0 _]; [congruence|].
  assert (Hnc0 : no_create_faults w0) by (unfold no_create_faults; now rewrite Hcf).
  pose proof (write_after_create_line_mode ws0 p w0 ltac:(congruence) Hl0 Hnc0) as HT.
  destruct (write_after_create ws0 p w0) as [[[n e] ws'] w'].
  rewrite <- Hcr, <- HL. exact HT.
Qed.

Lemma run_writes_line_mode_count (ps : list (list byte)) :
  forall (ws : WriteSplitter) (w : World) (h : fd),
  Bytes ws = false -> handle ws = Some h -> (h < created w)%nat ->
  1 <= numLines ws <= Limit ws -> Limit ws <= GoInt.max_int -> no_create_faults w ->
  let '(_, w') := run_writes ws ps w in
  Z.of_nat (created w') =
    Z.of_nat (created w) + (numLines ws + Z.of_nat (List.length ps) - 1) / Limit ws.
Proof.
  induction ps as [|p ps IH]; intros ws w h Hb Hh Hv Hn Hmax Hnc.
  - simpl. rewrite Z.div_small by lia. lia.
  - cbn [run_writes]. cbn [List.length].
    destruct (Z.eq_dec (numLines ws) (Limit ws)) as [Hfull|Hne].
    + pose proof (Write_line_mode_at_limit ws p w h Hb Hh ltac:(lia) Hfull Hnc) as H1.
      destruct (Write ws p w) as [[[n e] ws1] w1].
      destruct H1 as (Hb1 & Hl1 & Hh1 & Hn1 & Hc1 & Hnc1).
      assert (Hv1 : (created w < created w1)%nat) by lia.
      assert (Hn1' : 1 <= numLines ws1 <= Limit ws1) by lia.
      assert (Hmax1 : Limit ws1 <= GoInt.max_int) by lia.
      specialize (IH ws1 w1 (created w) Hb1 Hh1 Hv1 Hn1' Hmax1 Hnc1).
      destruct (run_writes ws1 ps w1) as [ws' w'].
      rewrite IH, Hc1, Hn1, Hl1, Hfull.
      replace (Limit ws + Z.of_nat (S (List.length ps)) - 1)
        with (Z.of_nat (List.length ps) + 1 * Limit ws) by lia.
      rewrite Z.div_add by lia.
      replace (1 + Z.of_nat (List.length ps) - 1) with (Z.of_nat (List.length ps)) by lia.
      lia.
    + assert (Hlt : 0 <= numLines ws < Limit ws) by lia.
      pose proof (Write_line_mode_below_limit ws p w h Hb Hh Hv Hlt Hmax) as H1.
      destruct (Write ws p w) as [[[n e] ws1] w1].
      destruct H1 as (Hb1 & Hl1 & Hh1 & Hn1 & Hc1 & Hcf1 & _).
      assert (Hv1 : (h < created w1)%nat) by lia.
      assert (Hn1' : 1 <= numLines ws1 <= Limit ws1) by lia.
      assert (Hmax1 : Limit ws1 <= GoInt.max_int) by lia.
      assert (Hnc1 : no_create_faults w1) by (unfold no_create_faults; now rewrite Hcf1).
      specialize (IH ws1 w1 h Hb1 Hh1 Hv1 Hn1' Hmax1 Hnc1).
      destruct (run_writes ws1 ps w1) as [ws' w'].
      rewrite IH, Hc1, Hn1, Hl1. do 2 f_equal. lia.
Qed.

(** X2: the number of files of a line-mode sink.  With a positive limit
    [L], when no creation fails, [N] writes on a sink just built by
    [LineSplitter] create [N / L] files, rounded up, whatever the data and
    whether or not the writes succeed. *)
Theorem line_mode_file_count
  (limit : Z) (dir prefix : string) (ps : list (list byte)) (w : World) :
  0 < limit <= GoInt.max_int -> no_create_faults w ->
  let '(_, w') := run_writes (LineSplitter limit dir prefix) ps w in
  Z.of_nat (created w') =
    Z.of_nat (created w) + (Z.of_nat (List.length ps) + limit - 1) / limit.
Proof.
  intros Hl Hnc. destruct ps as [|p ps].
  - simpl. rewrite Z.div_small by lia. lia.
  - cbn [run_writes]. cbn [List.length].
    rewrite (Write_lazy_tail (LineSplitter limit dir prefix) p w eq_refl
               (switch_rotate_zero (LineSplitter limit dir prefix) eq_refl eq_refl)).
    pose proof (write_after_create_line_mode (LineSplitter limit dir prefix) p w
                  eq_refl eq_refl Hnc) as H1.
    destruct (write_after_create (LineSplitter limit dir prefix) p w) as [[[n e] ws1] w1].
    destruct H1 as (Hb1 & Hl1 & Hh1 & Hn1 & Hc1 & Hnc1).
    simpl in Hl1.
    assert (Hv1 : (created w < created w1)%nat) by lia.
    assert (Hn1' : 1 <= numLines ws1 <= Limit ws1) by lia.
    assert (Hmax1 : Limit ws1 <= GoInt.max_int) by lia.
    pose proof (run_writes_line_mode_count ps ws1 w1 (created w) Hb1 Hh1 Hv1 Hn1' Hmax1 Hnc1)
      as H2.
    destruct (run_writes ws1 ps w1) as [ws' w'].
    rewrite H2, Hc1, Hn1, Hl1.
    replace (Z.of_nat (S (List.length ps)) + limit - 1)
      with (Z.of_nat (List.length ps) + 1 * limit) by lia.
    rewrite Z.div_add by lia.
    replace (1 + Z.of_nat (List.length ps) - 1) with (Z.of_nat (List.length ps)) by lia.
    lia.
Qed.

Lemma line_mode_file_count_witness :
  let ps := [bytes_of "a"; bytes_of "b"; bytes_of "c"; bytes_of "d"; bytes_of "e";
             bytes_of "f"; bytes_of "g"] in
  0 < 3 <= GoInt.max_int /\ no_create_faults Demo.calm /\
  (let '(_, w') := run_writes (LineSplitter 3 "/tmp/x" "log-") ps Demo.calm in
   Z.of_nat (created w') = 3).
Proof.
  cbv zeta.
  assert (Hl : 0 < 3 <= GoInt.max_int) by (split; vm_compute; [reflexivity|discriminate]).
  assert (Hnc : no_create_faults Demo.calm) by constructor.
  pose proof (line_mode_file_count 3 "/tmp/x" "log-"
                [bytes_of "a"; bytes_of "b"; bytes_of "c"; bytes_of "d"; bytes_of "e";
                 bytes_of "f"; bytes_of "g"] Demo.calm Hl Hnc) as H.
  split; [exact Hl|]. split; [exact Hnc|].
  destruct (run_writes (LineSplitter 3 "/tmp/x" "log-") _ Demo.calm) as [ws' w'].
  rewrite H. reflexivity.
Defined.

(** ** Closed files *)

Section ClosedFile.

Variables (i : fd) (f : File).
Hypothesis f_closed : fclosed f = true.








End ClosedFile.



(** ** A sink after an explicit [Close] *)

(** A [Write] to a closed handle when no rotation is due. *)
Lemma Write_closed_handle (ws : WriteSplitter) (p : list byte) (w : World) (h : fd) (f : File) :
  handle ws = Some h -> nth_error (files w) h = Some f -> fclosed f = true ->
  switch_rotate ws = false ->
  Write ws p w =
    (0, Some (PathError "write" (fname f) ErrClosed),
     set_counts ws (GoInt.add (numLines ws) 1) (GoInt.add (numBytes ws) 0),
     record w (EvWrite h p 0 (Some (PathError "write" (fname f) ErrClosed)))).
Proof.
  intros Hh Hf Hc Hs.
  now rewrite (Write_plain ws p w h Hh Hs), (File_Write_closed h p w f Hf Hc).
Qed.

(** X9: with no positive limit, a sink that was explicitly closed stays
    unusable.  Every later [Write] goes to the closed file and fails with
    the closed-file error, writing nothing; no file is ever created again
    and the file table does not change. *)
Theorem closed_sink_without_limit_stays_closed
  (ws : WriteSplitter) (w : World) (h : fd) (f : File) (ps : list (list byte)) :
  Limit ws <= 0 -> handle ws = Some h ->
  nth_error (files w) h = Some f -> fclosed f = true ->
  let '(ws', w') := run_writes ws ps w in
  handle ws' = Some h /\ files w' = files w /\
  Forall2 (fun ev p => ev = EvWrite h p 0 (Some (PathError "write" (fname f) ErrClosed)))
          (events_since w w') ps.
Proof.
  intros Hl Hh Hf Hc.
  assert (H : let '(ws', w') := run_writes ws ps w in
              handle ws' = Some h /\ files w' = files w /\
              exists evs, trace w' = trace w ++ evs /\
                Forall2 (fun ev p => ev = EvWrite h p 0
                                            (Some (PathError "write" (fname f) ErrClosed)))
                        evs ps).
  { revert ws w Hl Hh Hf. induction ps as [|p ps IH]; intros ws w Hl Hh Hf.
    - simpl. repeat split; auto. exists []. rewrite app_nil_r. auto.
    - cbn [run_writes].
      rewrite (Write_closed_handle ws p w h f Hh Hf Hc (switch_rotate_no_limit ws Hl)).
      specialize (IH (set_counts ws (GoInt.add (numLines ws) 1) (GoInt.add (numBytes ws) 0))
                     (record w (EvWrite h p 0 (Some (PathError "write" (fname f) ErrClosed))))
                     Hl Hh Hf).
      destruct (run_writes _ ps _) as [ws' w'].
      destruct IH as (Hh' & Hfs & evs & Ht & Hall).
      repeat split; auto.
      eexists. split; [|constructor; [reflexivity|exact Hall]].
      rewrite Ht. simpl. now rewrite <- app_assoc. }
  destruct (run_writes ws ps w) as [ws' w'].
  destruct H as (Hh' & Hfs & evs & Ht & Hall).
  repeat split; auto. now rewrite (events_since_app w w' evs Ht).
Qed.

Lemma closed_sink_without_limit_stays_closed_witness :
  let r := run_calls Demo.line0 [CallWrite (bytes_of "a"); CallClose] Demo.calm in
  let ws := fst r in
  let w := snd r in
  let name := "/tmp/x/log-2020-01-01T00:00:00.000000001Z" in
  let f := mkFile name (bytes_of "a") true in
  let ps := [bytes_of "b"; bytes_of "c"] in
  Limit ws <= 0 /\ handle ws = Some 0%nat /\
  nth_error (files w) 0 = Some f /\ fclosed f = true /\
  (let '(ws', w') := run_writes ws ps w in
   handle ws' = Some 0%nat /\ files w' = [f] /\
   Forall2 (fun ev p => ev = EvWrite 0 p 0 (Some (PathError "write" name ErrClosed)))
           (events_since w w') ps).
Proof.
  cbv zeta.
  set (r := run_calls Demo.line0 [CallWrite (bytes_of "a"); CallClose] Demo.calm).
  assert (Hl : Limit (fst r) <= 0) by (vm_compute; discriminate).
  pose proof (closed_sink_without_limit_stays_closed (fst r) (snd r) 0%nat
                (mkFile "/tmp/x/log-2020-01-01T00:00:00.000000001Z" (bytes_of "a") true)
                [bytes_of "b"; bytes_of "c"] Hl eq_refl eq_refl eq_refl) as H.
  split; [exact Hl|]. do 3 (split; [reflexivity|]).
  destruct (run_writes (fst r) [bytes_of "b"; bytes_of "c"] (snd r)) as [ws' w'].
  destruct H as (Hh & Hfs & Hall).
  split; [exact Hh|]. split; [rewrite Hfs; reflexivity|exact Hall].
Defined.





(** ** Closing twice *)

(** X14: a second [Close] always fails and changes nothing.  Whatever the
    sink and the world, right after a [Close] another [Close] returns an
    error (the closed-file error of the handle, or [ErrNotAFile] when the
    sink never had a handle), and leaves the sink and every file as they
    were. *)
Theorem Close_twice_fails_and_changes_nothing (ws : WriteSplitter) (w : World) :
  let '(_, ws1, w1) := Close ws w in
  let '(e2, ws2, w2) := Close ws1 w1 in
  e2 <> None /\ ws2 = ws1 /\ files w2 = files w1 /\
  (handle ws = None -> e2 = Some ErrNotAFile) /\
  (forall h f, handle ws = Some h -> nth_error (files w) h = Some f ->
               e2 = Some (PathError "close" (fname f) ErrClosed)).
Proof.
  unfold Close at 1. destruct (handle ws) as [h|] eqn:Hh.
  - destruct (nth_error (files w) h) as [f|] eqn:Hf.
    + assert (H1 : exists r w1, File_Close h w = (r, w1) /\
                     nth_error (files w1) h = Some (mkFile (fname f) (fdata f) true)).
      { destruct (fclosed f) eqn:Ho.
        - rewrite (File_Close_closed h w f Hf Ho). do 2 eexists. split; [reflexivity|].
          simpl. rewrite Hf. destruct f; simpl in *. now subst.
        - rewrite (File_Close_open h w f Hf Ho). do 2 eexists. split; [reflexivity|].
          simpl. eapply nth_error_update_same; eauto. }
      destruct H1 as (r & w1 & -> & Hf1).
      unfold Close. cbn [handle set_counts]. rewrite Hh.
      rewrite (File_Close_closed h w1 _ Hf1 eq_refl). simpl.
      repeat split; try discriminate.
      intros h' f' Hh' Hf'. congruence.
    + rewrite (File_Close_invalid h w Hf).
      unfold Close. cbn [handle set_counts]. rewrite Hh.
      rewrite (File_Close_invalid h w Hf). simpl.
      repeat split; try discriminate.
      intros h' f' Hh' Hf'. congruence.
  - unfold Close. rewrite Hh. repeat split; try discriminate.
Qed.

(** ** Byte mode *)

Lemma switch_rotate_byte_mode (ws : WriteSplitter) :
  Bytes ws = true -> numLines ws <= numBytes ws ->
  switch_rotate ws = (0 <? Limit ws) && (Limit ws <=? numBytes ws).
Proof.
  intros Hb Hn. unfold switch_rotate. rewrite Hb, andb_true_r.
  destruct (0 <? Limit ws); simpl; auto.
  destruct (Z.leb_spec (Limit ws) (numBytes ws)); auto.
  destruct (Z.leb_spec (Limit ws) (numLines ws)); auto. lia.
Qed.

(** X13: byte mode follows the byte count alone as long as no write wrote
    zero bytes.  On a byte-mode sink whose line counter does not exceed its
    byte counter, a [Write] rotates exactly when the limit is positive and
    the byte counter has reached it; otherwise it only writes to the
    current file.  A [Write] that writes at least one byte keeps the line
    counter from exceeding the byte counter. *)
Theorem byte_mode_rotates_on_bytes
  (ws : WriteSplitter) (w : World) (h : fd) (p : list byte) :
  Bytes ws = true -> handle ws = Some h -> (h < created w)%nat ->
  0 <= numLines ws <= numBytes ws ->
  numBytes ws + Z.of_nat (List.length p) <= GoInt.max_int ->
  let '(n, e, ws', w') := Write ws p w in
  (0 < Limit ws <= numBytes ws ->
   exists r name c rest, events_since w w' = EvClose h r :: EvCreate name c :: rest) /\
  (~ 0 < Limit ws <= numBytes ws -> events_since w w' = [EvWrite h p n e]) /\
  (1 <= n -> numLines ws' <= numBytes ws').
Proof.
  intros Hb Hh Hv Hn Hmax.
  assert (Hmin : - 2 ^ 63 <= 0) by (vm_compute; discriminate).
  pose proof (switch_rotate_byte_mode ws Hb ltac:(lia)) as Hrule.
  destruct (switch_rotate ws) eqn:Hs.
  - (* the byte counter has reached the limit *)
    symmetry in Hrule. apply andb_prop in Hrule. destruct Hrule as [H1 H2].
    apply Z.ltb_lt in H1. apply Z.leb_le in H2.
    pose proof (Write_rotate_starts ws p w h Hh Hv Hs) as Hev.
    rewrite (Write_rotate_tail ws p w h Hh Hs) in *.
    pose proof (Close_frame ws w) as HC.
    destruct (Close ws w) as [[e0 ws0] w0].
    destruct HC as (_ & Hz & _).
    destruct Hz as [Hl0 Hb0]; [congruence|].
    destruct (hd None (create_faults w0)) as [c|] eqn:Hc.
    + destruct (write_after_create_fails ws0 p w0 c Hc) as (w1 & Heq & _).
      rewrite Heq in *. split; [auto|]. split; [lia|].
      destruct (counters_collapse ws0 None) as (HL & HB & _). intros _. lia.
    + destruct (write_after_create_succeeds ws0 p w0 Hc) as (w1 & Heq & _).
      rewrite Heq in *. split; [auto|]. split; [lia|].
      cbn [numLines numBytes set_counts]. rewrite Hl0, Hb0.
      pose proof (write_count_le w0 p) as Hk.
      intros Hn1. rewrite (add_in_range 0 1), (add_in_range 0 (Z.of_nat (write_count w0 p))).
      * lia.
      * unfold GoInt.in_range, GoInt.min_int, GoInt.max_int in *. lia.
      * unfold GoInt.in_range, GoInt.min_int, GoInt.max_int in *. lia.
  - (* it has not *)
    symmetry in Hrule. apply andb_false_iff in Hrule.
    assert (Hnot : ~ 0 < Limit ws <= numBytes ws).
    { intros [H1 H2]. destruct Hrule as [H|H].
      - apply Z.ltb_ge in H. lia.
      - apply Z.leb_gt in H. lia. }
    rewrite (Write_plain ws p w h Hh Hs).
    pose proof (File_Write_valid h p w Hv) as HF.
    pose proof (File_Write_contract (Some h) p w) as HB.
    destruct (File_Write (Some h) p w) as [[n e] w'].
    destruct HF as (Ht & _). destruct HB as [Hn0 _].
    split; [intros; contradiction|]. split.
    + intros _. now apply events_since_app.
    + cbn [numLines numBytes set_counts]. intros Hn1.
      rewrite (add_in_range (numLines ws) 1), (add_in_range (numBytes ws) n).
      * lia.
      * unfold GoInt.in_range, GoInt.min_int, GoInt.max_int in *. lia.
      * unfold GoInt.in_range, GoInt.min_int, GoInt.max_int in *. lia.
Qed.

Lemma byte_mode_rotates_on_bytes_witness :
  let ws := fst Demo.byte10_open in
  let w := snd Demo.byte10_open in
  let p := bytes_of "hello world" in
  Bytes ws = true /\ handle ws = Some 0%nat /\ (0 < created w)%nat /\
  0 <= numLines ws <= numBytes ws /\
  numBytes ws + Z.of_nat (List.length p) <= GoInt.max_int /\
  (let '(n, e, ws', w') := Write ws p w in
   events_since w w' = [EvWrite 0 p n e] /\ n = 11 /\ numLines ws' <= numBytes ws').
Proof.
  cbv zeta.
  assert (Hv : (0 < created (snd Demo.byte10_open))%nat) by (vm_compute; lia).
  assert (Hn : 0 <= numLines (fst Demo.byte10_open) <= numBytes (fst Demo.byte10_open))
    by (split; vm_compute; discriminate).
  assert (Hmax : numBytes (fst Demo.byte10_open)
                 + Z.of_nat (List.length (bytes_of "hello world")) <= GoInt.max_int)
    by (vm_compute; discriminate).
  pose proof (byte_mode_rotates_on_bytes (fst Demo.byte10_open) (snd Demo.byte10_open) 0%nat
                (bytes_of "hello world") eq_refl eq_refl Hv Hn Hmax) as H.
  do 2 (split; [reflexivity|]). split; [exact Hv|]. split; [exact Hn|]. split; [exact Hmax|].
  set (r := Write _ _ _) in *. vm_compute in r. subst r. cbv beta iota in H |- *.
  destruct H as (_ & Hplain & Hkeep).
  split; [|split; [reflexivity|]].
  - apply Hplain. intros [_ H2]. vm_compute in H2. now apply H2.
  - apply Hkeep. vm_compute. discriminate.
Defined.
